(** * nestjs-RBAC-starter: authentication service and access guards

    A shallow embedding of the TypeScript sources:

    - AuthService (validateUser, login, signup) and UserService
      (findOneByEmail, create, ...) of [src/auth/auth.service.ts]
    - the User entity of [src/user/user.entity.ts]
    - the role metadata of the routes of [src/user/user.controller.ts]
    - JwtAuthGuard.handleRequest of [src/auth/jwt-auth.guard.ts]
    - the apiResponse helper
    - RolesGuard, PermissionsGuard and the permission-carrying login, as
      [DYNAMIC_RBAC_GUIDE.md] gives them

    JavaScript objects of type [any] are finite maps from property names to
    values; [await]ed repository calls thread the table through a small
    state-and-exception monad; a [throw] is the [Throw] completion. *)

From stdpp Require Import base strings list gmap.

Local Open Scope Z_scope.
Local Open Scope string_scope.

(* ===================================================================== *)
(** ** JavaScript values, completions *)
(* ===================================================================== *)

(** The values that occur in the objects of this program. *)
Inductive JsValue : Type :=
| JUndefined
| JNum (n : Z)
| JStr (s : string)
| JArr (items : list string).

(** A plain object: own enumerable properties. *)
Abbreviation JsObject := (gmap string JsValue).

(** Property read [o.k]: a missing property reads as [undefined]. *)
Definition prop (o : JsObject) (k : string) : JsValue :=
  default JUndefined (o !! k).

(** [const { k, ...result } = o]: the rest object has every own property of
    [o] but [k]. *)
Definition rest_without (k : string) (o : JsObject) : JsObject :=
  delete k o.

(** [Array.prototype.includes] on string arrays. *)
Definition includes (l : list string) (x : string) : bool :=
  existsb (String.eqb x) l.

(** [[...new Set(l)]]: a Set keeps the first occurrence of every element, in
    insertion order. [seen] is the set built so far. *)
Fixpoint Set_spread_from (seen l : list string) : list string :=
  match l with
  | [] => []
  | x :: t =>
      if includes seen x then Set_spread_from seen t
      else x :: Set_spread_from (x :: seen) t
  end.

Definition Set_spread (l : list string) : list string :=
  Set_spread_from [] l.

(** Everything the program throws. The Nest exception classes carry the
    message given to their constructor; [UnauthorizedException ()] has none. *)
Inductive Exception : Type :=
| HttpException (response : string) (status : Z)
| NotFoundException (message : string)
| UnauthorizedException (message : option string)
| ConflictException (message : string)
| TypeError (message : string).

(** How a call completes. *)
Inductive Completion (A : Type) : Type :=
| Return (a : A)
| Throw (e : Exception).
Arguments Return {A} a.
Arguments Throw {A} e.

(* ===================================================================== *)
(** ** The Nest side: status codes, exception responses, apiResponse *)
(* ===================================================================== *)

Module HttpStatus.
Definition OK : Z := 200.
Definition CREATED : Z := 201.
Definition UNAUTHORIZED : Z := 401.
Definition FORBIDDEN : Z := 403.
Definition NOT_FOUND : Z := 404.
Definition CONFLICT : Z := 409.
Definition INTERNAL_SERVER_ERROR : Z := 500.
End HttpStatus.

(** The JSON body Nest sends for an exception that reaches the client. *)
Record ErrorResponse : Type := mkErrorResponse {
  err_statusCode : Z;
  err_message : string;
  err_error : option string
}.

(** Nest's exception layer: an [HttpException] built from a string answers
    with that string and its status; the named subclasses answer with their
    own status, the given message and the status text; without a message the
    status text is the message. Anything else is a 500. *)
Definition exception_response (e : Exception) : ErrorResponse :=
  match e with
  | HttpException response status => mkErrorResponse status response None
  | NotFoundException m =>
      mkErrorResponse HttpStatus.NOT_FOUND m (Some "Not Found")
  | UnauthorizedException (Some m) =>
      mkErrorResponse HttpStatus.UNAUTHORIZED m (Some "Unauthorized")
  | UnauthorizedException None =>
      mkErrorResponse HttpStatus.UNAUTHORIZED "Unauthorized" None
  | ConflictException m =>
      mkErrorResponse HttpStatus.CONFLICT m (Some "Conflict")
  | TypeError _ =>
      mkErrorResponse HttpStatus.INTERNAL_SERVER_ERROR "Internal server error" None
  end.

(** What the client sees of a call that threw: the response of the
    exception; nothing for a call that returned. *)
Definition response_of {A : Type} (c : Completion A) : option ErrorResponse :=
  match c with
  | Throw e => Some (exception_response e)
  | Return _ => None
  end.

(** [apiResponse] of response.helper.ts. *)
Record ApiResponse (A : Type) : Type := mkApiResponse {
  statusCode : Z;
  message : string;
  data : A
}.
Arguments mkApiResponse {A} _ _ _.
Arguments statusCode {A} _.
Arguments message {A} _.
Arguments data {A} _.

Definition apiResponse {A : Type} (statusCode : Z) (message : string) (data : A)
  : ApiResponse A :=
  mkApiResponse statusCode message data.

(* ===================================================================== *)
(** ** Roles and the guards *)
(* ===================================================================== *)

(** A role is the string value of its enum member. *)
Abbreviation Role := string (only parsing).

(** Modelled from the spec: roles.enum.ts is not among the sources; the
    members used by the controller are [USER], [ADMIN] and [SUPER_ADMIN], and
    the spec gives their identifiers as user, admin and super_admin (the
    column default of the roles migration is user as well). *)
Module RoleEnum.
Definition USER : Role := "user".
Definition ADMIN : Role := "admin".
Definition SUPER_ADMIN : Role := "super_admin".
End RoleEnum.

(** The [user] object a verified token leaves on the request. Either list
    may be missing from the payload. *)
Record JwtUser : Type := mkJwtUser {
  jwt_roles : option (list Role);
  jwt_permissions : option (list string)
}.

(** [reflector.getAllAndOverride(KEY, [handler, class])]: the first target
    that carries the metadata wins; [None] is [undefined]. *)
Definition getAllAndOverride {A : Type} (targets : list (option A)) : option A :=
  List.fold_right (fun t acc => match t with Some v => Some v | None => acc end)
                  None targets.

(** Reading a property of the request's [user]; reading from [undefined]
    throws. *)
Definition read_user {A : Type} (field : string) (user : option JwtUser)
    (get : JwtUser → A) : Completion A :=
  match user with
  | Some u => Return (get u)
  | None =>
      Throw (TypeError ("Cannot read properties of undefined (reading '"
                          +:+ field +:+ "')"))
  end.

(** [arr.some(cb)] where the callback may throw: the first [true] or the
    first exception ends the scan. *)
Fixpoint some_c {A : Type} (cb : A → Completion bool) (arr : list A)
  : Completion bool :=
  match arr with
  | [] => Return false
  | x :: t =>
      match cb x with
      | Return true => Return true
      | Return false => some_c cb t
      | Throw e => Throw e
      end
  end.

(** [user.roles?.includes(role)], as a truth value: [undefined] is falsy. *)
Definition roles_includes (roles : option (list Role)) (role : Role) : bool :=
  match roles with
  | Some l => includes l role
  | None => false
  end.

Module RolesGuard.
(** roles.guard.ts, [canActivate]. [requiredRoles] is what the reflector
    returned, [user] is [request.user]. *)
Definition canActivate (requiredRoles : option (list Role))
    (user : option JwtUser) : Completion bool :=
  match requiredRoles with
  | None => Return true
  | Some requiredRoles =>
      some_c (fun role =>
                match read_user "roles" user jwt_roles with
                | Return roles => Return (roles_includes roles role)
                | Throw e => Throw e
                end)
             requiredRoles
  end.
End RolesGuard.

Module PermissionsGuard.
(** permissions.guard.ts, [canActivate]. *)
Definition canActivate (requiredPermissions : option (list string))
    (user : option JwtUser) : Completion bool :=
  match requiredPermissions with
  | None => Return true
  | Some requiredPermissions =>
      match read_user "permissions" user jwt_permissions with
      | Throw e => Throw e
      | Return permissions =>
          let userPermissions := default [] permissions in
          Return (forallb (fun permission => includes userPermissions permission)
                          requiredPermissions)
      end
  end.

(** The required permissions the user does not hold. *)
Definition missing (requiredPermissions userPermissions : list string)
  : list string :=
  List.filter (fun p => negb (includes userPermissions p)) requiredPermissions.
End PermissionsGuard.

(** The role metadata of user.controller.ts: [@Roles(...)] on the handlers,
    none on the class. *)
Module UserController.
Inductive Handler : Type := findAll | findOne | remove.

Definition handler_roles (h : Handler) : option (list Role) :=
  match h with
  | findAll => Some [RoleEnum.ADMIN; RoleEnum.SUPER_ADMIN]
  | findOne => None
  | remove => Some [RoleEnum.SUPER_ADMIN]
  end.

Definition class_roles : option (list Role) := None.

Definition requiredRoles (h : Handler) : option (list Role) :=
  getAllAndOverride [handler_roles h; class_roles].
End UserController.

(* ===================================================================== *)
(** ** The User entity and its repository *)
(* ===================================================================== *)

Module User.
(** user.entity.ts: the columns of the users table. *)
Record t : Type := mk {
  id : Z;
  username : string;
  password : string;
  email : string;
  roles : list Role
}.

(** The own enumerable properties of an entity instance. *)
Definition props (u : t) : JsObject :=
  list_to_map
    [("id", JNum (id u));
     ("username", JStr (username u));
     ("password", JStr (password u));
     ("email", JStr (email u));
     ("roles", JArr (roles u))].

(** The column default of [roles]. *)
Definition default_roles : list Role := [RoleEnum.USER].
End User.

(** The users table: its rows in insertion order and the last value of the
    generated primary key. *)
Record Repository : Type := mkRepository {
  rows : list User.t;
  last_id : Z
}.

(** An [async] method: it reads and writes the table and either returns or
    throws. *)
Definition Async (A : Type) : Type := Repository → Completion A * Repository.

Definition ret {A : Type} (a : A) : Async A := fun s => (Return a, s).

Definition throw {A : Type} (e : Exception) : Async A := fun s => (Throw e, s).

(** [const x = await m; k]: a rejected promise ends the method. *)
Definition await {A B : Type} (m : Async A) (k : A → Async B) : Async B :=
  fun s =>
    match m s with
    | (Return a, s') => k a s'
    | (Throw e, s') => (Throw e, s')
    end.

Notation "x <~ m ;; k" := (await m (fun x => k))
  (at level 100, m at next level, right associativity).

Module usersRepository.
(** What [usersRepository.create] is given: the columns set by the caller. *)
Record DeepPartial : Type := mkPartial {
  new_username : string;
  new_password : string;
  new_email : string
}.

(** [findOne({ where })]: the first row that matches, [None] for [null]. *)
Definition findOne (where_ : User.t → bool) : Async (option User.t) :=
  fun s => (Return (List.find where_ (rows s)), s).

Definition find : Async (list User.t) :=
  fun s => (Return (rows s), s).

(** [save] of a new entity: the row gets the next generated id and the
    column default for [roles], and is returned with them. *)
Definition save (e : DeepPartial) : Async User.t :=
  fun s =>
    let u := User.mk (last_id s + 1) (new_username e) (new_password e)
                     (new_email e) User.default_roles in
    (Return u, mkRepository (rows s ++ [u]) (last_id s + 1)).

Definition delete (id : Z) : Async unit :=
  fun s =>
    (Return tt,
     mkRepository (List.filter (fun u => negb (Z.eqb (User.id u) id)) (rows s))
                  (last_id s)).
End usersRepository.

(** The two bcrypt calls of the services. The salt [hash] draws is the
    library's; the services only pass the digest along. *)
Class Bcrypt : Type := {
  bcrypt_hash : string → Z → string;
  bcrypt_compare : string → string → bool
}.

(** [jwtService.sign]. *)
Class JwtService : Type := {
  jwt_sign : JsObject → string
}.

Module UserService.
Section WithBcrypt.
Context `{Bcrypt}.

Definition findAll : Async (list User.t) := usersRepository.find.

Definition findOne (id : Z) : Async (option User.t) :=
  usersRepository.findOne (fun u => Z.eqb (User.id u) id).

Definition findOneByUsername (username : string) : Async (option User.t) :=
  usersRepository.findOne (fun u => String.eqb (User.username u) username).

Definition findOneByEmail (email : string) : Async (option User.t) :=
  usersRepository.findOne (fun u => String.eqb (User.email u) email).

Definition create (email username pass : string) : Async User.t :=
  existingUserEmail <~
    usersRepository.findOne (fun u => String.eqb (User.email u) email) ;;
  match existingUserEmail with
  | Some _ => throw (ConflictException "User with this email already exists")
  | None =>
      existingUserUsername <~
        usersRepository.findOne
          (fun u => String.eqb (User.username u) username) ;;
      match existingUserUsername with
      | Some _ =>
          throw (ConflictException "User with this username already exists")
      | None =>
          let hashedPassword := bcrypt_hash pass 10 in
          let newUser :=
            usersRepository.mkPartial username hashedPassword email in
          usersRepository.save newUser
      end
  end.

Definition remove (id : Z) : Async unit := usersRepository.delete id.
End WithBcrypt.
End UserService.

Module AuthService.
(** The [data] of a login response. *)
Record LoginData : Type := mkLoginData { access_token : string }.

Section WithServices.
Context `{Bcrypt} `{JwtService}.

Definition validateUser (email pass : string) : Async JsObject :=
  user <~ UserService.findOneByEmail email ;;
  match user with
  | None => throw (NotFoundException "User not found")
  | Some user =>
      if bcrypt_compare pass (User.password user)
      then ret (rest_without "password" (User.props user))
      else throw (UnauthorizedException (Some "Invalid credentials"))
  end.

(** The object handed to [jwtService.sign] by [login]. *)
Definition login_payload (user : JsObject) : JsObject :=
  list_to_map
    [("email", prop user "email");
     ("username", prop user "username");
     ("sub", prop user "id");
     ("roles", prop user "roles")].

Definition login (user : JsObject) : ApiResponse LoginData :=
  let payload := login_payload user in
  let token := jwt_sign payload in
  apiResponse HttpStatus.OK "Login successful" (mkLoginData token).

Definition signup (email username pass : string)
  : Async (ApiResponse JsObject) :=
  newUser <~ UserService.create email username pass ;;
  let result := rest_without "password" (User.props newUser) in
  ret (apiResponse HttpStatus.CREATED "Signup successful" result).
End WithServices.
End AuthService.

(* ===================================================================== *)
(** ** JwtAuthGuard *)
(* ===================================================================== *)

Module JwtAuthGuard.
(** The [info] passport hands over: an error of the jsonwebtoken library,
    or nothing. *)
Inductive Info : Type :=
| TokenExpiredError (expiredAt : Z)
| JsonWebTokenError (message : string)
| NoInfo.

Definition instanceof_TokenExpiredError (info : Info) : bool :=
  match info with
  | TokenExpiredError _ => true
  | _ => false
  end.

(** jwt-auth.guard.ts, [handleRequest]; [err] is [None] for a falsy [err],
    [user] is [None] for [false]. *)
Definition handleRequest (err : option Exception) (user : option JwtUser)
    (info : Info) : Completion JwtUser :=
  match err, user with
  | None, Some user => Return user
  | _, _ =>
      if instanceof_TokenExpiredError info
      then Throw (HttpException "JWT token has expired" HttpStatus.UNAUTHORIZED)
      else Throw (default (UnauthorizedException None) err)
  end.
End JwtAuthGuard.

(* ===================================================================== *)
(** ** The permission-carrying login of the guide (Steps 1, 2 and 4) *)
(* ===================================================================== *)

Module Dynamic.
(** permission.entity.ts *)
Record Permission : Type := mkPermission {
  permission_id : Z;
  permission_name : string
}.

(** role.entity.ts, with its permissions eagerly loaded. *)
Record RoleEntity : Type := mkRole {
  role_id : Z;
  role_name : string;
  role_permissions : list Permission
}.

(** The updated User entity, with its roles eagerly loaded. *)
Record UserEntity : Type := mkUser {
  id : Z;
  username : string;
  password : string;
  email : string;
  roles : list RoleEntity
}.

(** [user.roles.flatMap(role => role.permissions.map(p => p.name))] *)
Definition permissions (roles : list RoleEntity) : list string :=
  flat_map (fun role => map permission_name (role_permissions role)) roles.

(** [[...new Set(permissions)]] *)
Definition uniquePermissions (roles : list RoleEntity) : list string :=
  Set_spread (permissions roles).

Definition login_payload (user : UserEntity) : JsObject :=
  list_to_map
    [("username", JStr (username user));
     ("sub", JNum (id user));
     ("roles", JArr (map role_name (roles user)));
     ("permissions", JArr (uniquePermissions (roles user)))].

Definition login `{JwtService} (user : UserEntity) : AuthService.LoginData :=
  let payload := login_payload user in
  AuthService.mkLoginData (jwt_sign payload).
End Dynamic.

(* ===================================================================== *)
(** ** Token verification in front of JwtAuthGuard *)
(* ===================================================================== *)

Module TokenCodec.
(** The claims a token carries. *)
Record Claims : Type := mkClaims {
  sub : Z;
  claim_username : string;
  claim_email : string;
  roleNames : list Role;
  claim_permissions : option (list string);
  iat : Z;
  exp : Z
}.

(** A token as received: the decoded payload, if its three parts decode at
    all, and the signature that came with it. *)
Record Token : Type := mkToken {
  token_payload : option Claims;
  token_signature : string
}.

Inductive TokenError : Type := Malformed | BadSignature | Expired.

(** The signature the configured key gives a payload. *)
Class SigningKey : Type := {
  signature_of : Claims → string
}.

(** Modelled from the spec: the verifying half of the token codec (the JWT
    strategy and its library) is not among the sources. Section 4.5: verify
    checks, in order, structural well-formedness, the signature against the
    configured key, and expiry ([now < exp]); the first failure decides the
    error kind. *)
Definition verify `{SigningKey} (now : Z) (token : Token)
  : TokenError + Claims :=
  match token_payload token with
  | None => inl Malformed
  | Some claims =>
      if String.eqb (token_signature token) (signature_of claims)
      then if Z.ltb now (exp claims) then inr claims else inl Expired
      else inl BadSignature
  end.

(** Modelled from the spec: the error object of each kind, as the guard
    receives it in [info]. The expired one is the library's
    [TokenExpiredError]; the other two are plain [JsonWebTokenError]s. *)
Definition info_of (now : Z) (e : TokenError) : JwtAuthGuard.Info :=
  match e with
  | Expired => JwtAuthGuard.TokenExpiredError now
  | Malformed => JwtAuthGuard.JsonWebTokenError "jwt malformed"
  | BadSignature => JwtAuthGuard.JsonWebTokenError "invalid signature"
  end.

(** Modelled from the spec: what the verified claims become on the
    request. *)
Definition user_of (c : Claims) : JwtUser :=
  mkJwtUser (Some (roleNames c)) (claim_permissions c).

(** A request through [JwtAuthGuard]: a failed verification reaches
    [handleRequest] with no error, no user and the library's error as
    [info]; a verified token reaches it with its user. *)
Definition authenticate `{SigningKey} (now : Z) (token : Token)
  : Completion JwtUser :=
  match verify now token with
  | inl e => JwtAuthGuard.handleRequest None None (info_of now e)
  | inr claims =>
      JwtAuthGuard.handleRequest None (Some (user_of claims)) JwtAuthGuard.NoInfo
  end.
End TokenCodec.

(** The role names a request's user carries: none when the list is
    missing. *)
Definition roleNames_of (u : JwtUser) : list Role :=
  default [] (jwt_roles u).

(** The permissions a request's user carries: [user.permissions || []]. *)
Definition permissions_of (u : JwtUser) : list string :=
  default [] (jwt_permissions u).

(* ===================================================================== *)
(** ** Sample data *)
(* ===================================================================== *)

Module Sample.
(** A stand-in for bcrypt: the digest is the secret behind a fixed prefix. *)
Definition bcrypt : Bcrypt := {|
  bcrypt_hash := fun pass _ => "$2b$10$" +:+ pass;
  bcrypt_compare := fun pass digest => String.eqb digest ("$2b$10$" +:+ pass)
|}.

(** A stand-in for the JWT service: the token shows the subject it was
    signed for. *)
Definition jwt : JwtService := {|
  jwt_sign := fun payload =>
    match payload !! "sub" with
    | Some (JNum 1) => "token-of-1"
    | Some (JNum 2) => "token-of-2"
    | _ => "token"
    end
|}.

Definition alice : User.t :=
  User.mk 1 "alice" "$2b$10$p" "a@x.com" ["user"].

(** The table after alice signed up. *)
Definition repo : Repository := mkRepository [alice] 1.

Definition create_articles : Dynamic.Permission :=
  Dynamic.mkPermission 1 "create-articles".
Definition edit_articles : Dynamic.Permission :=
  Dynamic.mkPermission 2 "edit-articles".
Definition delete_articles : Dynamic.Permission :=
  Dynamic.mkPermission 3 "delete-articles".

Definition author : Dynamic.RoleEntity :=
  Dynamic.mkRole 1 "Author" [create_articles; edit_articles].
Definition editor : Dynamic.RoleEntity :=
  Dynamic.mkRole 2 "Editor" [edit_articles; delete_articles].

Definition key : TokenCodec.SigningKey := {|
  TokenCodec.signature_of := fun c => "sig-" +:+ TokenCodec.claim_username c
|}.

(** Claims issued at time 1000 for one hour. *)
Definition claims : TokenCodec.Claims :=
  TokenCodec.mkClaims 1 "alice" "a@x.com" ["user"] None 1000 4600.

Definition token : TokenCodec.Token :=
  TokenCodec.mkToken (Some claims) "sig-alice".
End Sample.

(* ===================================================================== *)
(** ** The routes of the user controller behind their guards *)
(* ===================================================================== *)

Module UserRoutes.
(** How a request to a guarded route ends: the handler ran, a guard
    returned [false] (answered 403 by Nest), or a guard or the handler
    threw. *)
Inductive Outcome (A : Type) : Type :=
| Handled (a : A)
| Forbidden
| Failed (e : Exception).
Arguments Handled {A} a.
Arguments Forbidden {A}.
Arguments Failed {A} e.

(** [@UseGuards(JwtAuthGuard, RolesGuard)] on the controller class: both
    guards run, in this order, before every handler. [err], [user] and
    [info] are what passport hands to [handleRequest]; what it returns is
    the [request.user] the roles guard reads. *)
Definition guards (h : UserController.Handler) (err : option Exception)
    (user : option JwtUser) (info : JwtAuthGuard.Info) : Outcome JwtUser :=
  match JwtAuthGuard.handleRequest err user info with
  | Throw e => Failed e
  | Return u =>
      match RolesGuard.canActivate (UserController.requiredRoles h) (Some u) with
      | Return true => Handled u
      | Return false => Forbidden
      | Throw e => Failed e
      end
  end.

(** A handler behind the guards of its route. *)
Definition route {A : Type} (h : UserController.Handler)
    (err : option Exception) (user : option JwtUser) (info : JwtAuthGuard.Info)
    (handler : Async A) : Repository → Outcome A * Repository :=
  fun s =>
    match guards h err user info with
    | Handled _ =>
        match handler s with
        | (Return a, s') => (Handled a, s')
        | (Throw e, s') => (Failed e, s')
        end
    | Forbidden => (Forbidden, s)
    | Failed e => (Failed e, s)
    end.

(** The three handlers; [id] is the route parameter after [+id]. *)
Definition findAll (err : option Exception) (user : option JwtUser)
    (info : JwtAuthGuard.Info) : Repository → Outcome (list User.t) * Repository :=
  route UserController.findAll err user info UserService.findAll.

Definition findOne (id : Z) (err : option Exception) (user : option JwtUser)
    (info : JwtAuthGuard.Info)
  : Repository → Outcome (option User.t) * Repository :=
  route UserController.findOne err user info (UserService.findOne id).

Definition remove (id : Z) (err : option Exception) (user : option JwtUser)
    (info : JwtAuthGuard.Info) : Repository → Outcome unit * Repository :=
  route UserController.remove err user info (UserService.remove id).
End UserRoutes.

(** The unique columns of the users table: no two rows share an email, no
    two rows share a username. *)
Definition unique_columns (repo : Repository) : Prop :=
  NoDup (map User.email (rows repo)) ∧ NoDup (map User.username (rows repo)).

(** What the services rely on from bcrypt: a secret matches its own
    digest. *)
Definition bcrypt_accepts_own_digest `{Bcrypt} : Prop :=
  ∀ pass cost, bcrypt_compare pass (bcrypt_hash pass cost) = true.

(** The writes the services offer: [create] (reached by signup) and
    [remove]. A failed [create] is a call like any other. *)
Inductive ServiceCall : Type :=
| CallCreate (email username pass : string)
| CallRemove (id : Z).

Definition call `{Bcrypt} (c : ServiceCall) (repo : Repository) : Repository :=
  match c with
  | CallCreate email username pass =>
      (UserService.create email username pass repo).2
  | CallRemove id => (UserService.remove id repo).2
  end.

(** The table after a sequence of calls, first call first. *)
Definition after_calls `{Bcrypt} (calls : list ServiceCall) (repo : Repository)
  : Repository :=
  List.fold_left (fun s c => call c s) calls repo.

(** The table before any signup. *)
Definition empty_table : Repository := mkRepository [] 0.

(** More sample data. *)
Module Fixture.
Definition admin : JwtUser := mkJwtUser (Some ["user"; "admin"]) None.
Definition root : JwtUser := mkJwtUser (Some ["super_admin"]) None.
Definition plain : JwtUser := mkJwtUser (Some ["user"]) None.

Definition bob : User.t := User.mk 2 "bob" "$2b$10$q" "b@x.com" ["user"].

(** The table with alice and bob. *)
Definition repo2 : Repository := mkRepository [Sample.alice; bob] 2.
End Fixture.

(* ===================================================================== *)
(** * Properties *)
(* ===================================================================== *)

(** ** Arrays *)

Lemma includes_true (l : list string) (x : string) :
  includes l x = true ↔ x ∈ l.
Proof.
  unfold includes. rewrite existsb_exists, list_elem_of_In. split.
  - intros (y & Hy & Heq). apply String.eqb_eq in Heq. by subst.
  - intros Hx. exists x. split; [done | apply String.eqb_refl].
Qed.

Lemma includes_false (l : list string) (x : string) :
  includes l x = false ↔ x ∉ l.
Proof.
  rewrite <- includes_true. destruct (includes l x); split; congruence.
Qed.

Lemma some_c_pure {A : Type} (f : A → bool) (arr : list A) :
  some_c (fun x => Return (f x)) arr = Return (existsb f arr).
Proof.
  induction arr as [|x t IH]; simpl; [done |].
  destruct (f x); simpl; [done | apply IH].
Qed.

Lemma existsb_roles_includes (R : list Role) (roles : option (list Role)) :
  existsb (roles_includes roles) R = true ↔
  ∃ r, r ∈ R ∧ r ∈ default [] roles.
Proof.
  rewrite existsb_exists. split.
  - intros (r & Hin & Hr). exists r. rewrite list_elem_of_In. split; [done |].
    destruct roles as [l|]; simpl in *; [by apply includes_true | done].
  - intros (r & Hin & Hr). exists r. rewrite <- list_elem_of_In. split; [done |].
    destruct roles as [l|]; simpl in *; [by apply includes_true |].
    by apply not_elem_of_nil in Hr.
Qed.

(** ** RolesGuard *)

Lemma RolesGuard_canActivate_eq (R : list Role) (u : JwtUser) :
  RolesGuard.canActivate (Some R) (Some u)
  = Return (existsb (roles_includes (jwt_roles u)) R).
Proof. unfold RolesGuard.canActivate. simpl. apply some_c_pure. Qed.

(** C1. On an operation that declares the required roles [R], and for the
    user of a verified token, the roles guard returns [true] exactly when
    one of the user's role names is in [R], and returns [false], its denial,
    exactly when none is. *)
Theorem RolesGuard_allows_iff_some_role_matches (R : list Role) (u : JwtUser) :
  (RolesGuard.canActivate (Some R) (Some u) = Return true
     ↔ ∃ r, r ∈ R ∧ r ∈ roleNames_of u)
  ∧ (RolesGuard.canActivate (Some R) (Some u) = Return false
     ↔ ¬ ∃ r, r ∈ R ∧ r ∈ roleNames_of u).
Proof.
  rewrite RolesGuard_canActivate_eq. unfold roleNames_of.
  pose proof (existsb_roles_includes R (jwt_roles u)) as Hiff.
  destruct (existsb (roles_includes (jwt_roles u)) R).
  - split; split; [intros _; by apply Hiff | done | done |].
    intros Hno. exfalso. apply Hno. by apply Hiff.
  - split; split; [done | | | done].
    + intros Hex. by apply Hiff in Hex.
    + intros _ Hex. by apply Hiff in Hex.
Qed.

(** The role gate of the spec's example: admin or moderator required. *)
Example RolesGuard_moderator_allowed :
  RolesGuard.canActivate (Some ["admin"; "moderator"])
    (Some (mkJwtUser (Some ["moderator"]) None)) = Return true.
Proof. reflexivity. Qed.

Example RolesGuard_user_denied :
  RolesGuard.canActivate (Some ["admin"; "moderator"])
    (Some (mkJwtUser (Some ["user"]) None)) = Return false.
Proof. reflexivity. Qed.

(** The routes of the user controller. *)
Example UserController_findAll_roles :
  UserController.requiredRoles UserController.findAll
  = Some ["admin"; "super_admin"].
Proof. reflexivity. Qed.

Example UserController_findAll_admin :
  RolesGuard.canActivate (UserController.requiredRoles UserController.findAll)
    (Some (mkJwtUser (Some ["user"; "admin"]) None)) = Return true.
Proof. reflexivity. Qed.

Example UserController_remove_admin_denied :
  RolesGuard.canActivate (UserController.requiredRoles UserController.remove)
    (Some (mkJwtUser (Some ["user"; "admin"]) None)) = Return false.
Proof. reflexivity. Qed.

Example UserController_findOne_open :
  RolesGuard.canActivate (UserController.requiredRoles UserController.findOne)
    (Some (mkJwtUser (Some []) None)) = Return true.
Proof. reflexivity. Qed.

(** C10. On a role-gated operation, a verified user whose payload has no
    roles list at all is denied: the guard returns [false], whatever roles
    are required, and does not throw. *)
Theorem RolesGuard_missing_roles_denied
    (R : list Role) (permissions : option (list string)) :
  RolesGuard.canActivate (Some R) (Some (mkJwtUser None permissions))
  = Return false.
Proof.
  rewrite RolesGuard_canActivate_eq. simpl.
  induction R as [|r R IH]; [done | apply IH].
Qed.

(** The throw the optional chaining does not guard against is the read of
    [roles] from a missing user: with no user on the request the first
    required role makes the guard throw. *)
Remark RolesGuard_no_user_throws (r : Role) (R : list Role) :
  ∃ m, RolesGuard.canActivate (Some (r :: R)) None = Throw (TypeError m).
Proof. eexists. reflexivity. Qed.

(** ** PermissionsGuard *)

Lemma PermissionsGuard_canActivate_eq (P : list string) (u : JwtUser) :
  PermissionsGuard.canActivate (Some P) (Some u)
  = Return (forallb (includes (permissions_of u)) P).
Proof. reflexivity. Qed.

Lemma forallb_includes (P perms : list string) :
  forallb (includes perms) P = true ↔ P ⊆ perms.
Proof.
  rewrite forallb_forall. split.
  - intros Hall p Hp. apply includes_true, Hall. by apply list_elem_of_In.
  - intros Hsub p Hp. apply includes_true, Hsub. by apply list_elem_of_In.
Qed.

Lemma missing_elem_of (P perms : list string) (p : string) :
  p ∈ PermissionsGuard.missing P perms ↔ p ∈ P ∧ p ∉ perms.
Proof.
  unfold PermissionsGuard.missing.
  rewrite !list_elem_of_In, filter_In, <- !list_elem_of_In.
  rewrite negb_true_iff, includes_false. done.
Qed.

Lemma missing_nil (P perms : list string) :
  PermissionsGuard.missing P perms = [] ↔ P ⊆ perms.
Proof.
  split.
  - intros Hnil p Hp. destruct (decide (p ∈ perms)) as [|Hnot]; [done |].
    assert (p ∈ PermissionsGuard.missing P perms) as Hin
      by (by apply missing_elem_of).
    rewrite Hnil in Hin. by apply not_elem_of_nil in Hin.
  - intros Hsub. destruct (PermissionsGuard.missing P perms) as [|p l] eqn:E;
      [done |].
    assert (p ∈ PermissionsGuard.missing P perms) as Hin
      by (rewrite E; left).
    apply missing_elem_of in Hin as [Hp Hnot]. by apply Hsub in Hp.
Qed.

(** C2, as the guard has it. On an operation that declares the required
    permissions [P], and for the user of a verified token, the permissions
    guard returns [true] exactly when every permission of [P] is among the
    user's permissions (a missing list counts as empty), and returns the bare
    [false], its denial, exactly when some required permission is missing. *)
Theorem PermissionsGuard_allows_iff_all_permissions_held
    (P : list string) (u : JwtUser) :
  (PermissionsGuard.canActivate (Some P) (Some u) = Return true
     ↔ P ⊆ permissions_of u)
  ∧ (PermissionsGuard.canActivate (Some P) (Some u) = Return false
     ↔ PermissionsGuard.missing P (permissions_of u) ≠ []).
Proof.
  rewrite PermissionsGuard_canActivate_eq, missing_nil.
  pose proof (forallb_includes P (permissions_of u)) as Hiff.
  destruct (forallb (includes (permissions_of u)) P).
  - split; split; [intros _; by apply Hiff | done | done |].
    intros Hno. exfalso. apply Hno. by apply Hiff.
  - split; split; [done | | | done].
    + intros Hsub. by apply Hiff in Hsub.
    + intros _ Hsub. by apply Hiff in Hsub.
Qed.

(** The permission gate of the spec's example. *)
Example PermissionsGuard_one_of_two_denied :
  PermissionsGuard.canActivate (Some ["create-articles"; "edit-articles"])
    (Some (mkJwtUser None (Some ["create-articles"]))) = Return false
  ∧ PermissionsGuard.missing ["create-articles"; "edit-articles"]
      ["create-articles"] = ["edit-articles"].
Proof. split; reflexivity. Qed.

Example PermissionsGuard_both_allowed :
  PermissionsGuard.canActivate (Some ["create-articles"; "edit-articles"])
    (Some (mkJwtUser None (Some ["edit-articles"; "create-articles"])))
  = Return true.
Proof. reflexivity. Qed.

(** C2, as stated, fails: the denial does not name the missing permissions.
    No reading of the guard's outcome gives them, since two denials with
    different missing permissions are the same outcome. *)
Lemma PermissionsGuard_denial_names_nothing :
  ¬ ∃ name : Completion bool → list string,
      ∀ (P : list string) (u : JwtUser),
        PermissionsGuard.canActivate (Some P) (Some u) = Return false →
        ∀ p, p ∈ name (PermissionsGuard.canActivate (Some P) (Some u))
             ↔ p ∈ PermissionsGuard.missing P (permissions_of u).
Proof.
  intros [name Hname].
  pose proof (Hname ["create-articles"; "edit-articles"]
                (mkJwtUser None (Some ["create-articles"])) eq_refl
                "edit-articles") as [_ H1].
  pose proof (Hname ["create-articles"; "edit-articles"]
                (mkJwtUser None (Some ["edit-articles"])) eq_refl
                "edit-articles") as [H2 _].
  assert ("edit-articles" ∈ PermissionsGuard.missing
            ["create-articles"; "edit-articles"] ["edit-articles"]) as Hin.
  { apply H2. apply H1. vm_compute. left. }
  vm_compute in Hin. apply list_elem_of_In in Hin. simpl in Hin.
  destruct Hin as [Heq | []]. discriminate Heq.
Qed.

(** ** The permission snapshot of the guide's login *)

Lemma Set_spread_from_elem_of (seen l : list string) (x : string) :
  x ∈ Set_spread_from seen l ↔ x ∈ l ∧ x ∉ seen.
Proof.
  revert seen. induction l as [|y t IH]; intros seen; simpl.
  - split; [intros Hin; by apply not_elem_of_nil in Hin | intros [Hin _]; done].
  - destruct (includes seen y) eqn:Hy.
    + apply includes_true in Hy. rewrite IH, elem_of_cons.
      intuition (subst; tauto).
    + apply includes_false in Hy.
      rewrite !elem_of_cons, IH, not_elem_of_cons.
      destruct (decide (x = y)) as [->|Hne]; tauto.
Qed.

Lemma Set_spread_from_NoDup (seen l : list string) :
  NoDup (Set_spread_from seen l).
Proof.
  revert seen. induction l as [|y t IH]; intros seen; simpl.
  - constructor.
  - destruct (includes seen y); [apply IH |].
    constructor; [| apply IH].
    rewrite Set_spread_from_elem_of, not_elem_of_cons. tauto.
Qed.

Lemma Set_spread_elem_of (l : list string) (x : string) :
  x ∈ Set_spread l ↔ x ∈ l.
Proof.
  unfold Set_spread. rewrite Set_spread_from_elem_of.
  pose proof (not_elem_of_nil x). tauto.
Qed.

Lemma permissions_elem_of (roles : list Dynamic.RoleEntity) (p : string) :
  p ∈ Dynamic.permissions roles ↔
  ∃ role perm, role ∈ roles ∧ perm ∈ Dynamic.role_permissions role
               ∧ Dynamic.permission_name perm = p.
Proof.
  unfold Dynamic.permissions. rewrite list_elem_of_In, in_flat_map. split.
  - intros (role & Hrole & Hp). apply in_map_iff in Hp as (perm & Hname & Hperm).
    exists role, perm. by rewrite !list_elem_of_In.
  - intros (role & perm & Hrole & Hperm & Hname). exists role.
    rewrite <- list_elem_of_In. split; [done |].
    apply in_map_iff. exists perm. by rewrite <- list_elem_of_In.
Qed.

(** C3. The permission list the guide's login puts in the token has no
    duplicates, holds exactly the permission names of the roles of the user,
    and is the same set of permissions whatever the order of the roles. *)
Theorem uniquePermissions_is_the_union_over_roles
    (roles : list Dynamic.RoleEntity) :
  NoDup (Dynamic.uniquePermissions roles)
  ∧ (∀ p, p ∈ Dynamic.uniquePermissions roles ↔
          ∃ role perm, role ∈ roles ∧ perm ∈ Dynamic.role_permissions role
                       ∧ Dynamic.permission_name perm = p)
  ∧ (∀ roles', roles' ≡ₚ roles →
       Dynamic.uniquePermissions roles' ≡ₚ Dynamic.uniquePermissions roles).
Proof.
  split; [apply Set_spread_from_NoDup |]. split.
  - intros p. unfold Dynamic.uniquePermissions.
    by rewrite Set_spread_elem_of, permissions_elem_of.
  - intros roles' Hperm. apply NoDup_Permutation;
      [apply Set_spread_from_NoDup | apply Set_spread_from_NoDup |].
    intros p. unfold Dynamic.uniquePermissions.
    rewrite !Set_spread_elem_of, !permissions_elem_of.
    split; intros (role & perm & Hrole & Hrest); exists role, perm;
      (split; [| done]).
    + by rewrite <- Hperm.
    + by rewrite Hperm.
Qed.

Lemma uniquePermissions_is_the_union_over_roles_witness :
  Dynamic.uniquePermissions [Sample.editor; Sample.author]
  ≡ₚ Dynamic.uniquePermissions [Sample.author; Sample.editor].
Proof.
  apply (uniquePermissions_is_the_union_over_roles
           [Sample.author; Sample.editor]).
  apply perm_swap.
Defined.

(** The payload of the guide's login: username, sub, role names and the
    permissions; it has no email. *)
Remark Dynamic_login_payload_fields (user : Dynamic.UserEntity) :
  Dynamic.login_payload user !! "permissions"
  = Some (JArr (Dynamic.uniquePermissions (Dynamic.roles user)))
  ∧ Dynamic.login_payload user !! "roles"
    = Some (JArr (map Dynamic.role_name (Dynamic.roles user)))
  ∧ Dynamic.login_payload user !! "sub" = Some (JNum (Dynamic.id user))
  ∧ Dynamic.login_payload user !! "username"
    = Some (JStr (Dynamic.username user))
  ∧ Dynamic.login_payload user !! "email" = None.
Proof. repeat split; reflexivity. Qed.

(** Two roles that share a permission: it is listed once, at its first
    occurrence; the order of the array follows the order of the roles. *)
Example uniquePermissions_author_editor :
  Dynamic.uniquePermissions [Sample.author; Sample.editor]
  = ["create-articles"; "edit-articles"; "delete-articles"].
Proof. reflexivity. Qed.

Example uniquePermissions_editor_author :
  Dynamic.uniquePermissions [Sample.editor; Sample.author]
  = ["edit-articles"; "delete-articles"; "create-articles"].
Proof. reflexivity. Qed.

Example uniquePermissions_no_roles : Dynamic.uniquePermissions [] = [].
Proof. reflexivity. Qed.

(** ** The users table *)

Lemma find_None_iff (f : User.t → bool) (l : list User.t) :
  List.find f l = None ↔ ∀ u, u ∈ l → f u = false.
Proof.
  split.
  - intros Hnone u Hu. apply (find_none f l Hnone). by apply list_elem_of_In.
  - intros Hall. induction l as [|v t IH]; simpl; [done |].
    rewrite (Hall v) by left. apply IH. intros u Hu. apply Hall. by right.
Qed.

Lemma find_Some_elem (f : User.t → bool) (l : list User.t) (u : User.t) :
  List.find f l = Some u → u ∈ l ∧ f u = true.
Proof.
  intros Hsome. apply find_some in Hsome as [Hin Hf].
  by rewrite list_elem_of_In.
Qed.

Section Services.
Context `{Bcrypt}.

(** ** UserService.create *)

(** C8. [create] leaves the table as it was whenever it throws, and what it
    throws is a conflict that names the field: the email conflict when a row
    has the email, the username conflict when no row has the email and a row
    has the username. It returns only when neither is taken, and then the
    table has grown by the returned row alone. *)
Theorem create_checks_uniqueness_before_write
    (email username pass : string) (repo : Repository) :
  match UserService.create email username pass repo with
  | (Throw e, repo') =>
      repo' = repo
      ∧ ((e = ConflictException "User with this email already exists"
          ∧ ∃ u, u ∈ rows repo ∧ User.email u = email)
         ∨ (e = ConflictException "User with this username already exists"
            ∧ (∀ u, u ∈ rows repo → User.email u ≠ email)
            ∧ ∃ u, u ∈ rows repo ∧ User.username u = username))
  | (Return newUser, repo') =>
      (∀ u, u ∈ rows repo →
            User.email u ≠ email ∧ User.username u ≠ username)
      ∧ rows repo' = (rows repo ++ [newUser])%list
      ∧ User.email newUser = email
      ∧ User.username newUser = username
      ∧ User.password newUser = bcrypt_hash pass 10
      ∧ User.roles newUser = [RoleEnum.USER]
  end.
Proof.
  unfold UserService.create, await, usersRepository.findOne, throw. simpl.
  destruct (List.find _ (rows repo)) as [u|] eqn:Hemail at 1; simpl.
  { apply find_Some_elem in Hemail as [Hin Heq]. apply String.eqb_eq in Heq.
    split; [done |]. left. split; [done |]. by exists u. }
  pose proof (proj1 (find_None_iff _ _) Hemail) as Hfree.
  assert (∀ u, u ∈ rows repo → User.email u ≠ email) as Hfree'.
  { intros u Hu. apply String.eqb_neq. by apply Hfree. }
  destruct (List.find _ (rows repo)) as [u|] eqn:Hname at 1; simpl.
  { apply find_Some_elem in Hname as [Hin Heq]. apply String.eqb_eq in Heq.
    split; [done |]. right. split; [done |]. split; [done |]. by exists u. }
  pose proof (proj1 (find_None_iff _ _) Hname) as Hnfree.
  split; [| done].
  intros u Hu. split; [by apply Hfree' |].
  apply String.eqb_neq. by apply Hnfree.
Qed.

(** ** AuthService.validateUser *)

Lemma validateUser_eq (email pass : string) (repo : Repository) :
  AuthService.validateUser email pass repo
  = match List.find (fun u => String.eqb (User.email u) email) (rows repo) with
    | None => (Throw (NotFoundException "User not found"), repo)
    | Some user =>
        if bcrypt_compare pass (User.password user)
        then (Return (rest_without "password" (User.props user)), repo)
        else (Throw (UnauthorizedException (Some "Invalid credentials")), repo)
    end.
Proof.
  unfold AuthService.validateUser, UserService.findOneByEmail, await,
    usersRepository.findOne. simpl.
  destruct (List.find _ (rows repo)) as [u|]; [| done].
  by destruct (bcrypt_compare pass (User.password u)).
Qed.

Lemma validateUser_unregistered (email pass : string) (repo : Repository) :
  (∀ u, u ∈ rows repo → User.email u ≠ email) →
  AuthService.validateUser email pass repo
  = (Throw (NotFoundException "User not found"), repo).
Proof.
  intros Hfree. rewrite validateUser_eq.
  assert (List.find (fun u => String.eqb (User.email u) email) (rows repo)
          = None) as ->; [| done].
  apply find_None_iff. intros u Hu. apply String.eqb_neq. by apply Hfree.
Qed.

Lemma validateUser_wrong_secret (email pass : string) (repo : Repository) :
  (∃ u, u ∈ rows repo ∧ User.email u = email) →
  (∀ u, u ∈ rows repo → User.email u = email →
        bcrypt_compare pass (User.password u) = false) →
  AuthService.validateUser email pass repo
  = (Throw (UnauthorizedException (Some "Invalid credentials")), repo).
Proof.
  intros (v & Hv & Hemail) Hwrong. rewrite validateUser_eq.
  destruct (List.find _ (rows repo)) as [u|] eqn:Hfind.
  - apply find_Some_elem in Hfind as [Hin Heq]. apply String.eqb_eq in Heq.
    by rewrite (Hwrong u Hin Heq).
  - pose proof (proj1 (find_None_iff _ _) Hfind v Hv) as Hne.
    apply String.eqb_neq in Hne. done.
Qed.

Lemma validateUser_returns (email pass : string) (repo : Repository)
    (result : JsObject) :
  (AuthService.validateUser email pass repo).1 = Return result →
  ∃ u, u ∈ rows repo ∧ User.email u = email
       ∧ bcrypt_compare pass (User.password u) = true
       ∧ result = rest_without "password" (User.props u).
Proof.
  rewrite validateUser_eq.
  destruct (List.find _ (rows repo)) as [u|] eqn:Hfind; [| done].
  apply find_Some_elem in Hfind as [Hin Heq]. apply String.eqb_eq in Heq.
  destruct (bcrypt_compare pass (User.password u)) eqn:Hcmp; [| done].
  simpl. intros [= <-]. by exists u.
Qed.

(** C6. When no row has the email, [validateUser] throws the not-found
    exception; when a row has the email and the secret matches the digest of
    no row with that email, it throws the invalid-credentials exception, and
    so never the not-found one. The table is untouched either way. *)
Theorem validateUser_failures (email pass : string) (repo : Repository) :
  ((∀ u, u ∈ rows repo → User.email u ≠ email) →
     AuthService.validateUser email pass repo
     = (Throw (NotFoundException "User not found"), repo))
  ∧ ((∃ u, u ∈ rows repo ∧ User.email u = email) →
     (∀ u, u ∈ rows repo → User.email u = email →
           bcrypt_compare pass (User.password u) = false) →
     AuthService.validateUser email pass repo
     = (Throw (UnauthorizedException (Some "Invalid credentials")), repo)
     ∧ AuthService.validateUser email pass repo
       ≠ (Throw (NotFoundException "User not found"), repo)).
Proof.
  split; [apply validateUser_unregistered |].
  intros Hreg Hwrong. by rewrite (validateUser_wrong_secret _ _ _ Hreg Hwrong).
Qed.

(** C7, as the service has it. The two failed attempts are answered
    differently: the unregistered email with 404 and the message of the
    not-found exception, the wrong secret with 401 and the message of the
    invalid-credentials exception. *)
Theorem validateUser_failures_are_told_apart
    (unknown_email registered_email pass1 pass2 : string) (repo : Repository) :
  (∀ u, u ∈ rows repo → User.email u ≠ unknown_email) →
  (∃ u, u ∈ rows repo ∧ User.email u = registered_email) →
  (∀ u, u ∈ rows repo → User.email u = registered_email →
        bcrypt_compare pass2 (User.password u) = false) →
  response_of (AuthService.validateUser unknown_email pass1 repo).1
  = Some (mkErrorResponse HttpStatus.NOT_FOUND "User not found"
            (Some "Not Found"))
  ∧ response_of (AuthService.validateUser registered_email pass2 repo).1
    = Some (mkErrorResponse HttpStatus.UNAUTHORIZED "Invalid credentials"
              (Some "Unauthorized"))
  ∧ response_of (AuthService.validateUser unknown_email pass1 repo).1
    ≠ response_of (AuthService.validateUser registered_email pass2 repo).1.
Proof.
  intros Hfree Hreg Hwrong.
  rewrite (validateUser_unregistered _ pass1 _ Hfree).
  by rewrite (validateUser_wrong_secret _ _ _ Hreg Hwrong).
Qed.

(** ** What leaves the service *)

Lemma rest_without_password (u : User.t) :
  rest_without "password" (User.props u)
  = list_to_map
      [("id", JNum (User.id u));
       ("username", JStr (User.username u));
       ("email", JStr (User.email u));
       ("roles", JArr (User.roles u))].
Proof.
  apply map_eq. intros k. unfold rest_without, User.props. simpl.
  destruct (decide (k = "password")) as [->|Hk].
  - rewrite lookup_delete_eq. reflexivity.
  - rewrite lookup_delete_ne by done.
    rewrite !lookup_insert. repeat case_decide; done.
Qed.

(** The entity itself does hold the digest. *)
Remark props_password (u : User.t) :
  User.props u !! "password" = Some (JStr (User.password u)).
Proof. reflexivity. Qed.

Lemma signup_returns (email username pass : string) (repo : Repository)
    (response : ApiResponse JsObject) :
  (AuthService.signup email username pass repo).1 = Return response →
  ∃ newUser,
    (UserService.create email username pass repo).1 = Return newUser
    ∧ response = apiResponse HttpStatus.CREATED "Signup successful"
                   (rest_without "password" (User.props newUser)).
Proof.
  unfold AuthService.signup, await.
  destruct (UserService.create email username pass repo) as [[u|e] repo'];
    simpl; [| done].
  intros [= <-]. by exists u.
Qed.

(** C9. The object [validateUser] returns for a successful authentication,
    and the [data] of the response [signup] returns for a successful signup,
    have no [password] property; they are the entity's other properties:
    id, username, email and roles. *)
Theorem returned_principal_has_no_password
    (email username pass : string) (repo : Repository) :
  (∀ result,
     (AuthService.validateUser email pass repo).1 = Return result →
     result !! "password" = None
     ∧ ∃ u, u ∈ rows repo
            ∧ result = list_to_map
                         [("id", JNum (User.id u));
                          ("username", JStr (User.username u));
                          ("email", JStr (User.email u));
                          ("roles", JArr (User.roles u))])
  ∧ (∀ response,
       (AuthService.signup email username pass repo).1 = Return response →
       data response !! "password" = None
       ∧ statusCode response = HttpStatus.CREATED
       ∧ ∃ newUser,
           (UserService.create email username pass repo).1 = Return newUser
           ∧ data response = list_to_map
                               [("id", JNum (User.id newUser));
                                ("username", JStr (User.username newUser));
                                ("email", JStr (User.email newUser));
                                ("roles", JArr (User.roles newUser))]).
Proof.
  split.
  - intros result Hok.
    apply validateUser_returns in Hok as (u & Hu & _ & _ & ->).
    split; [apply lookup_delete_eq |].
    exists u. split; [done | apply rest_without_password].
  - intros response Hok.
    apply signup_returns in Hok as (newUser & Hcreate & ->). simpl.
    split; [apply lookup_delete_eq |]. split; [done |].
    exists newUser. split; [done | apply rest_without_password].
Qed.

(** ** AuthService.login *)

Context `{JwtService}.

(** C4, as the service has it. For a user that [validateUser] returned,
    the payload [login] signs holds the principal's email, username, id
    (as [sub]) and role list, and nothing else: it has no [permissions]
    property. The response carries the signature of that payload. *)
Theorem login_payload_of_authenticated_user
    (email pass : string) (repo : Repository) (user : JsObject) :
  (AuthService.validateUser email pass repo).1 = Return user →
  ∃ u, u ∈ rows repo ∧ User.email u = email
       ∧ AuthService.login_payload user
         = list_to_map
             [("email", JStr (User.email u));
              ("username", JStr (User.username u));
              ("sub", JNum (User.id u));
              ("roles", JArr (User.roles u))]
       ∧ AuthService.login_payload user !! "permissions" = None
       ∧ AuthService.login user
         = apiResponse HttpStatus.OK "Login successful"
             (AuthService.mkLoginData
                (jwt_sign (AuthService.login_payload user))).
Proof.
  intros Hok. apply validateUser_returns in Hok as (u & Hu & Hemail & _ & ->).
  exists u. split; [done |]. split; [done |].
  split; [reflexivity |]. split; reflexivity.
Qed.

End Services.

(** ** JwtAuthGuard and expired tokens *)

Lemma handleRequest_expired (err : option Exception) (user : option JwtUser)
    (expiredAt : Z) :
  is_Some err ∨ user = None →
  JwtAuthGuard.handleRequest err user (JwtAuthGuard.TokenExpiredError expiredAt)
  = Throw (HttpException "JWT token has expired" HttpStatus.UNAUTHORIZED).
Proof.
  intros [[e ->] | ->]; [done |]. by destruct err.
Qed.

Lemma handleRequest_generic (info : JwtAuthGuard.Info) :
  JwtAuthGuard.instanceof_TokenExpiredError info = false →
  JwtAuthGuard.handleRequest None None info
  = Throw (UnauthorizedException None).
Proof. intros Hinfo. unfold JwtAuthGuard.handleRequest. by rewrite Hinfo. Qed.

(** C5. A token whose payload decodes and whose signature is the key's,
    but whose expiry is not after the current time, fails verification as
    [Expired] (so not as [BadSignature] or [Malformed]); the guard answers
    it with the exception that says the token has expired, whose response
    differs from the one of the plain unauthorized exception that a
    malformed or badly signed token gets (both are 401; the message tells
    them apart). Whatever failure reaches the guard with the library's
    expiry error as [info] is answered that way. *)
Theorem expired_token_gets_its_own_response `{TokenCodec.SigningKey}
    (now : Z) (token : TokenCodec.Token) (claims : TokenCodec.Claims) :
  TokenCodec.token_payload token = Some claims →
  TokenCodec.token_signature token = TokenCodec.signature_of claims →
  (TokenCodec.exp claims ≤ now)%Z →
  TokenCodec.verify now token = inl TokenCodec.Expired
  ∧ TokenCodec.authenticate now token
    = Throw (HttpException "JWT token has expired" HttpStatus.UNAUTHORIZED)
  ∧ response_of (TokenCodec.authenticate now token)
    = Some (mkErrorResponse HttpStatus.UNAUTHORIZED "JWT token has expired" None)
  ∧ (∀ e, e ≠ TokenCodec.Expired →
       response_of (JwtAuthGuard.handleRequest None None (TokenCodec.info_of now e))
       = Some (mkErrorResponse HttpStatus.UNAUTHORIZED "Unauthorized" None)
       ∧ response_of (TokenCodec.authenticate now token)
         ≠ response_of (JwtAuthGuard.handleRequest None None
                          (TokenCodec.info_of now e)))
  ∧ (∀ err user expiredAt,
       is_Some err ∨ user = None →
       JwtAuthGuard.handleRequest err user
         (JwtAuthGuard.TokenExpiredError expiredAt)
       = Throw (HttpException "JWT token has expired" HttpStatus.UNAUTHORIZED)).
Proof.
  intros Hpayload Hsig Hexp.
  assert (TokenCodec.verify now token = inl TokenCodec.Expired) as Hverify.
  { unfold TokenCodec.verify. rewrite Hpayload, Hsig, String.eqb_refl.
    by rewrite (proj2 (Z.ltb_ge now (TokenCodec.exp claims)) Hexp). }
  assert (TokenCodec.authenticate now token
          = Throw (HttpException "JWT token has expired" HttpStatus.UNAUTHORIZED))
    as Hauth.
  { unfold TokenCodec.authenticate. rewrite Hverify.
    apply handleRequest_expired. by right. }
  split; [done |]. split; [done |]. rewrite Hauth. split; [done |].
  split; [| apply handleRequest_expired].
  intros e He. destruct e; try done; by rewrite handleRequest_generic.
Qed.

(** ** The services on the sample table *)

Lemma Sample_repo_rows (u : User.t) : u ∈ rows Sample.repo → u = Sample.alice.
Proof. intros Hu. by apply list_elem_of_singleton in Hu. Defined.

Example create_email_taken :
  @UserService.create Sample.bcrypt "a@x.com" "bob" "q" Sample.repo
  = (Throw (ConflictException "User with this email already exists"),
     Sample.repo).
Proof. reflexivity. Qed.

Example create_username_taken :
  @UserService.create Sample.bcrypt "b@x.com" "alice" "q" Sample.repo
  = (Throw (ConflictException "User with this username already exists"),
     Sample.repo).
Proof. reflexivity. Qed.

Example create_both_taken_reports_email :
  @UserService.create Sample.bcrypt "a@x.com" "alice" "q" Sample.repo
  = (Throw (ConflictException "User with this email already exists"),
     Sample.repo).
Proof. reflexivity. Qed.

Example create_fresh :
  @UserService.create Sample.bcrypt "b@x.com" "bob" "q" Sample.repo
  = (Return (User.mk 2 "bob" "$2b$10$q" "b@x.com" ["user"]),
     mkRepository
       [Sample.alice; User.mk 2 "bob" "$2b$10$q" "b@x.com" ["user"]] 2).
Proof. reflexivity. Qed.

Lemma validateUser_failures_witness :
  @AuthService.validateUser Sample.bcrypt "nobody@x.com" "p" Sample.repo
  = (Throw (NotFoundException "User not found"), Sample.repo)
  ∧ @AuthService.validateUser Sample.bcrypt "a@x.com" "wrong" Sample.repo
    = (Throw (UnauthorizedException (Some "Invalid credentials")), Sample.repo).
Proof.
  split.
  - apply (proj1 (@validateUser_failures Sample.bcrypt
                    "nobody@x.com" "p" Sample.repo)).
    intros u Hu. rewrite (Sample_repo_rows u Hu). discriminate.
  - apply (proj2 (@validateUser_failures Sample.bcrypt
                    "a@x.com" "wrong" Sample.repo)).
    + exists Sample.alice. split; [left | reflexivity].
    + intros u Hu _. rewrite (Sample_repo_rows u Hu). reflexivity.
Defined.

(** C7, as stated, fails: on the sample table the unregistered email is
    answered with 404 and the wrong secret with 401. *)
Lemma login_failures_differ_in_status :
  ∃ e1 e2,
    (@AuthService.validateUser Sample.bcrypt "nobody@x.com" "p" Sample.repo).1
    = Throw e1
    ∧ (@AuthService.validateUser Sample.bcrypt "a@x.com" "wrong" Sample.repo).1
      = Throw e2
    ∧ err_statusCode (exception_response e1) = 404
    ∧ err_statusCode (exception_response e2) = 401
    ∧ exception_response e1 ≠ exception_response e2.
Proof.
  eexists _, _. split; [reflexivity |]. split; [reflexivity |].
  split; [reflexivity |]. split; [reflexivity |]. discriminate.
Qed.

Lemma validateUser_failures_are_told_apart_witness :
  response_of
    (@AuthService.validateUser Sample.bcrypt "nobody@x.com" "p" Sample.repo).1
  ≠ response_of
      (@AuthService.validateUser Sample.bcrypt "a@x.com" "wrong" Sample.repo).1.
Proof.
  apply (@validateUser_failures_are_told_apart Sample.bcrypt
           "nobody@x.com" "a@x.com" "p" "wrong" Sample.repo).
  - intros u Hu. rewrite (Sample_repo_rows u Hu). discriminate.
  - exists Sample.alice. split; [left | reflexivity].
  - intros u Hu _. rewrite (Sample_repo_rows u Hu). reflexivity.
Defined.

Lemma returned_principal_has_no_password_witness :
  (∃ result,
     (@AuthService.validateUser Sample.bcrypt "a@x.com" "p" Sample.repo).1
     = Return result
     ∧ result !! "password" = None)
  ∧ (∃ response,
       (@AuthService.signup Sample.bcrypt "b@x.com" "bob" "q" Sample.repo).1
       = Return response
       ∧ data response !! "password" = None).
Proof.
  split.
  - eexists. split; [reflexivity |].
    apply (proj1 (@returned_principal_has_no_password Sample.bcrypt
                    "a@x.com" "alice" "p" Sample.repo)).
    reflexivity.
  - eexists. split; [reflexivity |].
    apply (proj2 (@returned_principal_has_no_password Sample.bcrypt
                    "b@x.com" "bob" "q" Sample.repo)).
    reflexivity.
Defined.

(** C4, as stated, fails: the payload signed for alice after a successful
    authentication has no permissions. *)
Lemma login_payload_without_permissions :
  ∃ user,
    (@AuthService.validateUser Sample.bcrypt "a@x.com" "p" Sample.repo).1
    = Return user
    ∧ AuthService.login_payload user
      = list_to_map [("email", JStr "a@x.com"); ("username", JStr "alice");
                     ("sub", JNum 1); ("roles", JArr ["user"])]
    ∧ AuthService.login_payload user !! "permissions" = None.
Proof.
  eexists. split; [reflexivity |]. split; reflexivity.
Qed.

Lemma login_payload_of_authenticated_user_witness :
  ∃ user,
    (@AuthService.validateUser Sample.bcrypt "a@x.com" "p" Sample.repo).1
    = Return user
    ∧ ∃ u, u ∈ rows Sample.repo
           ∧ prop (AuthService.login_payload user) "sub" = JNum (User.id u)
           ∧ @AuthService.login Sample.jwt user
             = apiResponse 200 "Login successful"
                 (AuthService.mkLoginData "token-of-1").
Proof.
  eexists. split; [reflexivity |].
  destruct (@login_payload_of_authenticated_user Sample.bcrypt Sample.jwt
              "a@x.com" "p" Sample.repo _ eq_refl)
    as (u & Hu & _ & Hpayload & _ & Hlogin).
  exists u. split; [exact Hu |]. split.
  - rewrite Hpayload. reflexivity.
  - rewrite (Sample_repo_rows u Hu) in Hpayload. reflexivity.
Defined.

Lemma expired_token_gets_its_own_response_witness :
  @TokenCodec.verify Sample.key 5000 Sample.token = inl TokenCodec.Expired
  ∧ @TokenCodec.authenticate Sample.key 5000 Sample.token
    = Throw (HttpException "JWT token has expired" 401).
Proof.
  destruct (@expired_token_gets_its_own_response Sample.key 5000
              Sample.token Sample.claims eq_refl eq_refl)
    as (Hverify & Hauth & _).
  - vm_compute. discriminate.
  - split; [exact Hverify | exact Hauth].
Defined.

(** A token that has not expired passes the guard with its user. *)
Example valid_token_passes :
  @TokenCodec.authenticate Sample.key 2000 Sample.token
  = Return (mkJwtUser (Some ["user"]) None).
Proof. reflexivity. Qed.

Example tampered_token_is_plain_unauthorized :
  @TokenCodec.authenticate Sample.key 2000
    (TokenCodec.mkToken (Some Sample.claims) "sig-mallory")
  = Throw (UnauthorizedException None).
Proof. reflexivity. Qed.

(* ===================================================================== *)
(** * Further properties of the guards *)
(* ===================================================================== *)

(** X1. The roles guard throws exactly when at least one role is required
    and the request has no user; without role metadata it lets every
    request through, with or without a user. *)
Theorem RolesGuard_throws_iff_roles_required_and_no_user
    (requiredRoles : option (list Role)) (user : option JwtUser) :
  ((∃ e, RolesGuard.canActivate requiredRoles user = Throw e)
     ↔ user = None ∧ ∃ r R, requiredRoles = Some (r :: R))
  ∧ RolesGuard.canActivate None user = Return true.
Proof.
  split; [| done]. split.
  - intros [e He]. destruct requiredRoles as [R|]; [| done].
    destruct user as [u|]; [by rewrite RolesGuard_canActivate_eq in He |].
    split; [done |]. destruct R as [|r R]; [done |]. by exists r, R.
  - intros [-> (r & R & ->)]. eexists. reflexivity.
Qed.

(** X2. A route annotated with an empty role list is closed to everyone,
    user or not, while a route annotated with an empty permission list is
    open to every user: the two guards treat the empty requirement in
    opposite ways. *)
Theorem empty_requirements_close_roles_and_open_permissions
    (user : option JwtUser) (u : JwtUser) :
  RolesGuard.canActivate (Some []) user = Return false
  ∧ PermissionsGuard.canActivate (Some []) (Some u) = Return true.
Proof. split; reflexivity. Qed.

(** X3. Access through the roles guard is monotone: a user who passes keeps
    passing when given more roles, and when more roles are accepted by the
    route. In particular the order and repetition of roles on either side
    do not matter. *)
Theorem RolesGuard_monotone (R R' : list Role) (u u' : JwtUser) :
  R ⊆ R' →
  roleNames_of u ⊆ roleNames_of u' →
  RolesGuard.canActivate (Some R) (Some u) = Return true →
  RolesGuard.canActivate (Some R') (Some u') = Return true.
Proof.
  intros HR Hu. rewrite !RolesGuard_canActivate_eq. intros [= Hallow]. f_equal.
  apply existsb_roles_includes in Hallow as (r & HrR & Hru).
  apply existsb_roles_includes. exists r. split; [by apply HR | by apply Hu].
Qed.

Lemma RolesGuard_monotone_witness :
  RolesGuard.canActivate (Some ["admin"; "moderator"; "super_admin"])
    (Some Fixture.admin) = Return true.
Proof.
  apply (RolesGuard_monotone ["moderator"; "admin"] _
           (mkJwtUser (Some ["admin"]) None)).
  - intros r Hr. apply list_elem_of_In in Hr. apply list_elem_of_In. simpl in *.
    tauto.
  - intros r Hr. apply list_elem_of_In in Hr. apply list_elem_of_In. simpl in *.
    tauto.
  - reflexivity.
Defined.

(** X4. The permissions guard throws exactly when permission metadata is
    present, even an empty list, and the request has no user. *)
Theorem PermissionsGuard_throws_iff_metadata_and_no_user
    (requiredPermissions : option (list string)) (user : option JwtUser) :
  (∃ e, PermissionsGuard.canActivate requiredPermissions user = Throw e)
  ↔ user = None ∧ requiredPermissions ≠ None.
Proof.
  split.
  - intros [e He]. destruct requiredPermissions as [P|]; [| done].
    destruct user as [u|]; [done |]. done.
  - intros [-> Hreq]. destruct requiredPermissions as [P|]; [| done].
    eexists. reflexivity.
Qed.

(** X5. A user whose payload has no permissions list passes the
    permissions guard only on routes whose required list is empty. *)
Theorem PermissionsGuard_missing_permissions
    (P : list string) (roles : option (list Role)) :
  PermissionsGuard.canActivate (Some P) (Some (mkJwtUser roles None))
  = Return true ↔ P = [].
Proof.
  rewrite PermissionsGuard_canActivate_eq. unfold permissions_of. simpl.
  destruct P as [|p P]; simpl; [done |]. split; [intros [=] | done].
Qed.

(** X6. Access through the permissions guard is monotone: a user who passes
    keeps passing when given more permissions, and when the route requires
    fewer. *)
Theorem PermissionsGuard_monotone (P P' : list string) (u u' : JwtUser) :
  P' ⊆ P →
  permissions_of u ⊆ permissions_of u' →
  PermissionsGuard.canActivate (Some P) (Some u) = Return true →
  PermissionsGuard.canActivate (Some P') (Some u') = Return true.
Proof.
  intros HP Hu. rewrite !PermissionsGuard_canActivate_eq.
  intros [= Hallow]. f_equal.
  apply forallb_includes. apply forallb_includes in Hallow.
  intros p Hp. by apply Hu, Hallow, HP.
Qed.

Lemma PermissionsGuard_monotone_witness :
  PermissionsGuard.canActivate (Some ["edit-articles"])
    (Some (mkJwtUser None
             (Some ["delete-articles"; "create-articles"; "edit-articles"])))
  = Return true.
Proof.
  apply (PermissionsGuard_monotone ["create-articles"; "edit-articles"] _
           (mkJwtUser None (Some ["create-articles"; "edit-articles"]))).
  - intros r Hr. apply list_elem_of_In in Hr. apply list_elem_of_In. simpl in *.
    tauto.
  - intros r Hr. apply list_elem_of_In in Hr. apply list_elem_of_In. simpl in *.
    tauto.
  - reflexivity.
Defined.

(** X7. Requirements compose: requiring the roles of two lists together
    admits whoever one of the lists admits, and requiring the permissions of
    two lists together admits whoever both lists admit. *)
Theorem requirement_lists_compose (A B : list string) (u : JwtUser) :
  (RolesGuard.canActivate (Some (A ++ B)%list) (Some u) = Return true
     ↔ RolesGuard.canActivate (Some A) (Some u) = Return true
       ∨ RolesGuard.canActivate (Some B) (Some u) = Return true)
  ∧ (PermissionsGuard.canActivate (Some (A ++ B)%list) (Some u) = Return true
     ↔ PermissionsGuard.canActivate (Some A) (Some u) = Return true
       ∧ PermissionsGuard.canActivate (Some B) (Some u) = Return true).
Proof.
  rewrite !RolesGuard_canActivate_eq, !PermissionsGuard_canActivate_eq.
  rewrite existsb_app, forallb_app. split.
  - destruct (existsb _ A), (existsb _ B); simpl; split; try tauto;
      intros [|]; congruence.
  - destruct (forallb _ A), (forallb _ B); simpl; split; try tauto;
      intros []; congruence.
Qed.

(* ===================================================================== *)
(** * Further properties of JwtAuthGuard and of the guarded routes *)
(* ===================================================================== *)

Lemma handleRequest_Return (err : option Exception)
    (user : option JwtUser) (info : JwtAuthGuard.Info) (u : JwtUser) :
  JwtAuthGuard.handleRequest err user info = Return u
  ↔ err = None ∧ user = Some u.
Proof.
  unfold JwtAuthGuard.handleRequest. split.
  - destruct err, user; destruct (JwtAuthGuard.instanceof_TokenExpiredError info);
      try done; by intros [= ->].
  - by intros [-> ->].
Qed.

(** X8. [handleRequest] lets a request through only when passport reported
    no error and a user, and then hands on exactly that user; an expiry
    error in [info] does not stop a request that has a user. *)
Theorem handleRequest_returns_iff (err : option Exception)
    (user : option JwtUser) (info : JwtAuthGuard.Info) (u : JwtUser) :
  (JwtAuthGuard.handleRequest err user info = Return u
     ↔ err = None ∧ user = Some u)
  ∧ JwtAuthGuard.handleRequest None (Some u)
      (JwtAuthGuard.TokenExpiredError 0) = Return u.
Proof. split; [apply handleRequest_Return | done]. Qed.

(** X9. When passport reported no error, every rejection by
    [handleRequest] is answered with status 401; an error passport did
    report is rethrown as it is unless [info] is the expiry error. *)
Theorem handleRequest_rejections (user : option JwtUser)
    (info : JwtAuthGuard.Info) :
  (∀ e, JwtAuthGuard.handleRequest None user info = Throw e →
        err_statusCode (exception_response e) = HttpStatus.UNAUTHORIZED)
  ∧ (∀ err, JwtAuthGuard.instanceof_TokenExpiredError info = false →
            JwtAuthGuard.handleRequest (Some err) user info = Throw err).
Proof.
  unfold JwtAuthGuard.handleRequest. split.
  - intros e. destruct user; [done |].
    destruct (JwtAuthGuard.instanceof_TokenExpiredError info); by intros [= <-].
  - intros err ->. by destruct user.
Qed.

Lemma guards_handled_iff (h : UserController.Handler) (err : option Exception)
    (user : option JwtUser) (info : JwtAuthGuard.Info) (u : JwtUser) :
  UserRoutes.guards h err user info = UserRoutes.Handled u
  ↔ err = None ∧ user = Some u
    ∧ match UserController.requiredRoles h with
      | None => True
      | Some R => ∃ r, r ∈ R ∧ r ∈ roleNames_of u
      end.
Proof.
  unfold UserRoutes.guards. split.
  - destruct (JwtAuthGuard.handleRequest err user info) as [u'|e] eqn:Hjwt;
      [| done].
    apply handleRequest_Return in Hjwt as [-> ->].
    destruct (UserController.requiredRoles h) as [R|].
    + rewrite RolesGuard_canActivate_eq.
      destruct (existsb _ R) eqn:Hex; [| done]. intros [= ->].
      split; [done |]. split; [done |]. by apply existsb_roles_includes.
    + by intros [= ->].
  - intros (-> & -> & Hroles).
    replace (JwtAuthGuard.handleRequest None (Some u) info) with (Return u)
      by done.
    destruct (UserController.requiredRoles h) as [R|]; [| done].
    rewrite RolesGuard_canActivate_eq.
    by rewrite (proj2 (existsb_roles_includes R (jwt_roles u)) Hroles).
Qed.

Lemma route_handled_iff {A : Type} (h : UserController.Handler)
    (err : option Exception) (user : option JwtUser) (info : JwtAuthGuard.Info)
    (handler : Async A) (s : Repository) (a : A) :
  (UserRoutes.route h err user info handler s).1 = UserRoutes.Handled a
  ↔ (∃ u, UserRoutes.guards h err user info = UserRoutes.Handled u)
    ∧ (handler s).1 = Return a.
Proof.
  unfold UserRoutes.route.
  destruct (UserRoutes.guards h err user info) as [u| |e]; simpl.
  - destruct (handler s) as [[a'|e] s']; simpl; split.
    + intros [= ->]. split; [by exists u | done].
    + by intros [_ [= ->]].
    + done.
    + by intros [_ ?].
  - split; [done | by intros [[u [=]] _]].
  - split; [done | by intros [[u [=]] _]].
Qed.


(** X10. The list of users is served exactly to a request with no passport
    error whose user has the admin or the super_admin role, and what is
    served is every row of the table. *)
Theorem findAll_served_iff_admin (err : option Exception)
    (user : option JwtUser) (info : JwtAuthGuard.Info) (repo : Repository)
    (l : list User.t) :
  (UserRoutes.findAll err user info repo).1 = UserRoutes.Handled l
  ↔ err = None
    ∧ (∃ u, user = Some u
            ∧ ("admin" ∈ roleNames_of u ∨ "super_admin" ∈ roleNames_of u))
    ∧ l = rows repo.
Proof.
  unfold UserRoutes.findAll. rewrite route_handled_iff. split.
  - intros [[u Hg] Hl]. apply guards_handled_iff in Hg as (-> & -> & Hroles).
    simpl in Hroles. destruct Hroles as (r & Hr & Hu).
    split; [done |]. split.
    + exists u. split; [done |].
      apply list_elem_of_In in Hr. simpl in Hr.
      destruct Hr as [<- | [<- | []]]; [by left | by right].
    + simpl in Hl. by injection Hl.
  - intros (-> & (u & -> & Hroles) & ->). split; [| done].
    exists u. apply guards_handled_iff. split; [done |]. split; [done |]. simpl.
    destruct Hroles as [Hr | Hr]; [exists "admin" | exists "super_admin"];
      (split; [| done]); apply list_elem_of_In; simpl; tauto.
Qed.


(** X12. The single-user route asks for no role: every request with a user
    and no passport error is served the row with that id, whatever roles the
    user has or lacks, and the row is served with its password digest. *)
Theorem findOne_served_to_every_user (id : Z) (u : JwtUser)
    (info : JwtAuthGuard.Info) (repo : Repository) (row : User.t) :
  row ∈ rows repo →
  User.id row = id →
  ∃ served,
    UserRoutes.findOne id None (Some u) info repo
    = (UserRoutes.Handled (Some served), repo)
    ∧ served ∈ rows repo ∧ User.id served = id
    ∧ User.props served !! "password" = Some (JStr (User.password served)).
Proof.
  intros Hrow Hid. unfold UserRoutes.findOne, UserRoutes.route. simpl.
  destruct (List.find (fun v => Z.eqb (User.id v) id) (rows repo))
    as [served|] eqn:Hfind.
  - apply find_Some_elem in Hfind as [Hin Heq]. apply Z.eqb_eq in Heq.
    exists served. by repeat split.
  - pose proof (proj1 (find_None_iff _ _) Hfind row Hrow) as Hne.
    apply Z.eqb_neq in Hne. done.
Qed.

Lemma findOne_served_to_every_user_witness :
  ∃ served,
    UserRoutes.findOne 1 None (Some (mkJwtUser None None))
      JwtAuthGuard.NoInfo Sample.repo
    = (UserRoutes.Handled (Some served), Sample.repo)
    ∧ User.props served !! "password" = Some (JStr "$2b$10$p").
Proof.
  destruct (findOne_served_to_every_user 1 (mkJwtUser None None)
              JwtAuthGuard.NoInfo Sample.repo Sample.alice)
    as (served & Hserved & Hin & _ & Hpw).
  - left.
  - reflexivity.
  - exists served. split; [exact Hserved |].
    rewrite Hpw, (Sample_repo_rows served Hin). reflexivity.
Defined.

(* ===================================================================== *)
(** * Further properties of the services *)
(* ===================================================================== *)

Lemma find_app_Some (f : User.t → bool) (l k : list User.t) (u : User.t) :
  List.find f l = Some u → List.find f (l ++ k) = Some u.
Proof.
  induction l as [|v t IH]; simpl; [done |]. by destruct (f v).
Qed.

Lemma find_app_None (f : User.t → bool) (l k : list User.t) :
  List.find f l = None → List.find f (l ++ k) = List.find f k.
Proof.
  induction l as [|v t IH]; simpl; [done |]. by destruct (f v).
Qed.

Lemma NoDup_map_filter {B : Type} (f : User.t → B) (p : User.t → bool)
    (l : list User.t) :
  NoDup (map f l) → NoDup (map f (List.filter p l)).
Proof.
  induction l as [|v t IH]; simpl; [done |].
  rewrite NoDup_cons. intros [Hv Ht]. destruct (p v); simpl; [| by apply IH].
  apply NoDup_cons. split; [| by apply IH].
  intros Hin. apply Hv. apply list_elem_of_In, in_map_iff.
  apply list_elem_of_In, in_map_iff in Hin as (w & Hfw & Hw).
  exists w. split; [done |]. apply filter_In in Hw. tauto.
Qed.

Section ServiceProperties.
Context `{Bcrypt}.

Lemma create_eq (email username pass : string) (repo : Repository) :
  UserService.create email username pass repo
  = match List.find (fun u => String.eqb (User.email u) email) (rows repo) with
    | Some _ =>
        (Throw (ConflictException "User with this email already exists"), repo)
    | None =>
        match List.find (fun u => String.eqb (User.username u) username)
                (rows repo) with
        | Some _ =>
            (Throw (ConflictException "User with this username already exists"),
             repo)
        | None =>
            let u := User.mk (last_id repo + 1) username (bcrypt_hash pass 10)
                             email User.default_roles in
            (Return u, mkRepository (rows repo ++ [u]) (last_id repo + 1))
        end
    end.
Proof.
  unfold UserService.create, await, usersRepository.findOne, throw. simpl.
  destruct (List.find _ (rows repo)) as [u|] at 1 2; simpl; [done |].
  by destruct (List.find _ (rows repo)).
Qed.

Lemma create_Return (email username pass : string) (repo repo' : Repository)
    (newUser : User.t) :
  UserService.create email username pass repo = (Return newUser, repo') →
  List.find (fun u => String.eqb (User.email u) email) (rows repo) = None
  ∧ List.find (fun u => String.eqb (User.username u) username) (rows repo)
    = None
  ∧ newUser = User.mk (last_id repo + 1) username (bcrypt_hash pass 10) email
                      User.default_roles
  ∧ repo' = mkRepository (rows repo ++ [newUser]) (last_id repo + 1).
Proof.
  rewrite create_eq.
  destruct (List.find _ (rows repo)) as [u|]; [done |].
  destruct (List.find _ (rows repo)) as [u|]; [done |].
  simpl. by intros [= <- <-].
Qed.

Lemma create_Throw (email username pass : string) (repo repo' : Repository)
    (e : Exception) :
  UserService.create email username pass repo = (Throw e, repo') →
  repo' = repo ∧ err_statusCode (exception_response e) = HttpStatus.CONFLICT.
Proof.
  rewrite create_eq.
  destruct (List.find _ (rows repo)) as [u|]; [by intros [= <- <-] |].
  destruct (List.find _ (rows repo)) as [u|]; [by intros [= <- <-] | done].
Qed.

Lemma create_find (email username pass : string) (repo repo' : Repository)
    (newUser : User.t) :
  UserService.create email username pass repo = (Return newUser, repo') →
  List.find (fun u => String.eqb (User.email u) email) (rows repo')
  = Some newUser
  ∧ List.find (fun u => String.eqb (User.username u) username) (rows repo')
    = Some newUser.
Proof.
  intros Hcreate.
  apply create_Return in Hcreate as (Hemail & Hname & -> & ->). simpl.
  rewrite (find_app_None _ _ _ Hemail), (find_app_None _ _ _ Hname). simpl.
  by rewrite !String.eqb_refl.
Qed.

(** X13. A user that [create] returned is found again, under the email and
    under the username given, in the table [create] left. *)
Theorem create_then_find (email username pass : string)
    (repo repo' : Repository) (newUser : User.t) :
  UserService.create email username pass repo = (Return newUser, repo') →
  UserService.findOneByEmail email repo' = (Return (Some newUser), repo')
  ∧ UserService.findOneByUsername username repo'
    = (Return (Some newUser), repo').
Proof.
  intros Hcreate.
  apply create_find in Hcreate as [Hemail Hname].
  unfold UserService.findOneByEmail, UserService.findOneByUsername,
    usersRepository.findOne. by rewrite Hemail, Hname.
Qed.

(** X14. Once [create] has returned for an email and a username, a further
    [create] with that email throws the email conflict and one with another
    free email but that username throws the username conflict; neither
    writes. *)
Theorem create_twice_conflicts (email username pass : string)
    (repo repo' : Repository) (newUser : User.t)
    (email2 username2 pass2 : string) :
  UserService.create email username pass repo = (Return newUser, repo') →
  UserService.create email username2 pass2 repo'
  = (Throw (ConflictException "User with this email already exists"), repo')
  ∧ ((∀ u, u ∈ rows repo' → User.email u ≠ email2) →
     UserService.create email2 username pass2 repo'
     = (Throw (ConflictException "User with this username already exists"),
        repo')).
Proof.
  intros Hcreate.
  pose proof (create_find email username pass repo repo' newUser
                Hcreate) as [Hfe Hfu].
  split.
  - rewrite create_eq, Hfe. done.
  - intros Hfree. rewrite create_eq.
    rewrite (proj2 (find_None_iff _ _)), Hfu; [done |].
    intros u Hu. apply String.eqb_neq. by apply Hfree.
Qed.

Lemma create_keeps_unique_columns (email username pass : string)
    (repo : Repository) :
  unique_columns repo →
  unique_columns (UserService.create email username pass repo).2.
Proof.
  intros [Hemails Hnames].
  destruct (UserService.create email username pass repo) as [[u|e] repo']
    eqn:Hcreate; simpl.
  - apply create_Return in Hcreate as (Hemail & Hname & -> & ->).
    unfold unique_columns. simpl. rewrite !map_app. simpl.
    split; apply NoDup_app; (split; [done |]);
      (split; [| apply NoDup_singleton]); intros x Hx Hnew;
      apply list_elem_of_singleton in Hnew as ->;
      apply list_elem_of_In, in_map_iff in Hx as (v & Hv & Hin);
      apply list_elem_of_In in Hin.
    + pose proof (proj1 (find_None_iff _ _) Hemail v Hin) as Hne.
      apply String.eqb_neq in Hne. done.
    + pose proof (proj1 (find_None_iff _ _) Hname v Hin) as Hne.
      apply String.eqb_neq in Hne. done.
  - by apply create_Throw in Hcreate as [-> _].
Qed.

Lemma remove_keeps_unique_columns (id : Z) (repo : Repository) :
  unique_columns repo → unique_columns (UserService.remove id repo).2.
Proof.
  intros [Hemails Hnames]. unfold unique_columns. simpl.
  split; by apply NoDup_map_filter.
Qed.

Lemma after_calls_invariant (P : Repository → Prop) :
  (∀ c s, P s → P (call c s)) →
  ∀ calls s, P s → P (after_calls calls s).
Proof.
  intros Hstep calls. unfold after_calls.
  induction calls as [|c calls IH]; intros s Hs; simpl; [done |].
  apply IH. by apply Hstep.
Qed.

(** X15. The checks of [create] keep the unique columns unique: whatever
    sequence of [create] and [remove] calls is made, from the empty table
    or from any table without duplicates, no two rows share an email and no
    two rows share a username. *)
Theorem calls_keep_unique_columns (calls : list ServiceCall) :
  unique_columns (after_calls calls empty_table)
  ∧ (∀ repo, unique_columns repo → unique_columns (after_calls calls repo)).
Proof.
  assert (∀ repo, unique_columns repo → unique_columns (after_calls calls repo))
    as Hall.
  { apply after_calls_invariant. intros [email username pass | id] s Hs.
    - by apply create_keeps_unique_columns.
    - by apply remove_keeps_unique_columns. }
  split; [| done]. apply Hall. split; constructor.
Qed.

Lemma calls_keep_rows (P : User.t → Prop) :
  (∀ id email username pass,
      P (User.mk id username (bcrypt_hash pass 10) email User.default_roles)) →
  ∀ calls repo, Forall P (rows repo) → Forall P (rows (after_calls calls repo)).
Proof.
  intros Hnew.
  apply (after_calls_invariant (fun s => Forall P (rows s))).
  intros [email username pass | id] s Hs; simpl.
  - destruct (UserService.create email username pass s) as [[u|e] s']
      eqn:Hcreate; simpl.
    + apply create_Return in Hcreate as (_ & _ & -> & ->). simpl.
      apply Forall_app. split; [done |]. apply Forall_singleton, Hnew.
    + by apply create_Throw in Hcreate as [-> _].
  - rewrite Forall_forall in *. intros u Hu. apply Hs.
    apply list_elem_of_In, filter_In in Hu as [Hu _]. by apply list_elem_of_In.
Qed.

(** X16. No service call grants a role or stores a secret as given: in
    every table built from the empty one by [create] and [remove] calls,
    each row has exactly the default role and, as password, a bcrypt digest
    of cost 10. *)
Theorem built_rows_have_default_role_and_digest
    (calls : list ServiceCall) (row : User.t) :
  row ∈ rows (after_calls calls empty_table) →
  User.roles row = [RoleEnum.USER]
  ∧ ∃ pass, User.password row = bcrypt_hash pass 10.
Proof.
  intros Hrow.
  assert (Forall (fun u => User.roles u = [RoleEnum.USER]
                           ∧ ∃ pass, User.password u = bcrypt_hash pass 10)
            (rows (after_calls calls empty_table))) as Hall.
  { apply calls_keep_rows; [| constructor].
    intros id email username pass. split; [done | by exists pass]. }
  rewrite Forall_forall in Hall. by apply Hall.
Qed.



(** X18. [create] does not disturb the users already there: whatever
    [findOne] found before, by any criterion, it finds after the call,
    whether the call returned or threw. *)
Theorem create_keeps_existing_users (email username pass : string)
    (repo : Repository) (where_ : User.t → bool) (u : User.t) :
  (usersRepository.findOne where_ repo).1 = Return (Some u) →
  (usersRepository.findOne where_
     (UserService.create email username pass repo).2).1
  = Return (Some u).
Proof.
  unfold usersRepository.findOne. simpl. intros [= Hfound].
  destruct (UserService.create email username pass repo) as [[v|e] repo']
    eqn:Hcreate; simpl.
  - apply create_Return in Hcreate as (_ & _ & _ & ->). simpl.
    by rewrite (find_app_Some _ _ _ _ Hfound).
  - apply create_Throw in Hcreate as [-> _]. by rewrite Hfound.
Qed.

(** X19. Authentication writes nothing: [validateUser] leaves the table as
    it found it, whether it returns or throws. *)
Theorem validateUser_leaves_table (email pass : string) (repo : Repository) :
  (AuthService.validateUser email pass repo).2 = repo.
Proof.
  rewrite validateUser_eq.
  destruct (List.find _ (rows repo)) as [u|]; [| done].
  by destruct (bcrypt_compare pass (User.password u)).
Qed.

(** X20. [signup] is refused exactly when some row already has the email
    or the username; the refusal is a 409 and stores nothing. *)
Theorem signup_conflict_iff (email username pass : string)
    (repo : Repository) :
  (∃ u, u ∈ rows repo ∧ (User.email u = email ∨ User.username u = username))
  ↔ ∃ e, AuthService.signup email username pass repo = (Throw e, repo)
         ∧ err_statusCode (exception_response e) = HttpStatus.CONFLICT.
Proof.
  unfold AuthService.signup, await.
  destruct (UserService.create email username pass repo) as [[v|e] repo']
    eqn:Hcreate.
  - apply create_Return in Hcreate as (Hemail & Hname & _ & _). split.
    + intros (u & Hu & [Heq | Heq]).
      * pose proof (proj1 (find_None_iff _ _) Hemail u Hu) as Hne.
        apply String.eqb_neq in Hne. done.
      * pose proof (proj1 (find_None_iff _ _) Hname u Hu) as Hne.
        apply String.eqb_neq in Hne. done.
    + by intros (e & [=] & _).
  - pose proof Hcreate as Hthrow. apply create_Throw in Hthrow as [-> Hstatus].
    split; [intros _; by exists e |]. intros _.
    rewrite create_eq in Hcreate.
    destruct (List.find (fun u => String.eqb (User.email u) email) (rows repo))
      as [u|] eqn:Hemail.
    { apply find_Some_elem in Hemail as [Hu Heq]. apply String.eqb_eq in Heq.
      exists u. split; [done | by left]. }
    destruct (List.find (fun u => String.eqb (User.username u) username)
                (rows repo)) as [u|] eqn:Hname; [| done].
    apply find_Some_elem in Hname as [Hu Heq]. apply String.eqb_eq in Heq.
    exists u. split; [done | by right].
Qed.

(** X21. Signing up and then logging in: provided bcrypt accepts a secret
    against its own digest, after a successful [signup] the same email and
    secret authenticate, [validateUser] returns the very object [signup]
    answered with, and the payload [login] signs for it carries the new id
    and the default role. *)
Theorem signup_then_validateUser (email username pass : string)
    (repo repo' : Repository) (response : ApiResponse JsObject) :
  bcrypt_accepts_own_digest →
  AuthService.signup email username pass repo = (Return response, repo') →
  AuthService.validateUser email pass repo' = (Return (data response), repo')
  ∧ AuthService.login_payload (data response)
    = list_to_map
        [("email", JStr email);
         ("username", JStr username);
         ("sub", JNum (last_id repo + 1));
         ("roles", JArr [RoleEnum.USER])].
Proof.
  intros Hbcrypt. unfold AuthService.signup, await.
  destruct (UserService.create email username pass repo) as [[v|e] s]
    eqn:Hcreate; [| done].
  unfold ret. intros [= <- <-]. simpl.
  pose proof (create_find _ _ _ _ _ _ Hcreate) as [Hfind _].
  apply create_Return in Hcreate as (_ & _ & -> & ->).
  rewrite validateUser_eq, Hfind. simpl. rewrite Hbcrypt. done.
Qed.

(** X22. The role-gated user routes are closed to every user the services
    can produce: in a table built from the empty one by [create] and
    [remove] calls, the payload signed for whoever authenticates lists the
    default role only, and a user with just that role is forbidden on the
    list and remove routes. *)
Theorem built_users_cannot_reach_admin_routes (calls : list ServiceCall)
    (email pass : string) (user : JsObject) :
  (AuthService.validateUser email pass (after_calls calls empty_table)).1
  = Return user →
  AuthService.login_payload user !! "roles" = Some (JArr [RoleEnum.USER])
  ∧ ∀ permissions info,
      UserRoutes.guards UserController.findAll None
        (Some (mkJwtUser (Some [RoleEnum.USER]) permissions)) info
      = UserRoutes.Forbidden
      ∧ UserRoutes.guards UserController.remove None
          (Some (mkJwtUser (Some [RoleEnum.USER]) permissions)) info
        = UserRoutes.Forbidden.
Proof.
  intros Hok. apply validateUser_returns in Hok as (u & Hu & _ & _ & ->).
  split; [| done].
  assert (Forall (fun u => User.roles u = [RoleEnum.USER])
            (rows (after_calls calls empty_table))) as Hall.
  { apply calls_keep_rows; [done | constructor]. }
  rewrite Forall_forall in Hall. pose proof (Hall u Hu) as Hinv.
  rewrite rest_without_password. simpl in Hinv.
  unfold AuthService.login_payload, prop. simpl.
  rewrite !lookup_insert. repeat case_decide; try done. simpl.
  by rewrite Hinv.
Qed.
End ServiceProperties.

Lemma Sample_bcrypt_accepts_own_digest :
  @bcrypt_accepts_own_digest Sample.bcrypt.
Proof. intros pass cost. simpl. apply String.eqb_refl. Defined.

Lemma create_then_find_witness :
  UserService.findOneByEmail "b@x.com" Fixture.repo2
  = (Return (Some Fixture.bob), Fixture.repo2).
Proof.
  apply (@create_then_find Sample.bcrypt "b@x.com" "bob" "q" Sample.repo).
  reflexivity.
Defined.

Lemma create_twice_conflicts_witness :
  @UserService.create Sample.bcrypt "b@x.com" "robert" "r" Fixture.repo2
  = (Throw (ConflictException "User with this email already exists"),
     Fixture.repo2)
  ∧ @UserService.create Sample.bcrypt "c@x.com" "bob" "r" Fixture.repo2
    = (Throw (ConflictException "User with this username already exists"),
       Fixture.repo2).
Proof.
  destruct (@create_twice_conflicts Sample.bcrypt "b@x.com" "bob" "q"
              Sample.repo Fixture.repo2 Fixture.bob "c@x.com" "robert" "r"
              eq_refl) as [Hemail Hname].
  split; [exact Hemail |]. apply Hname.
  intros u Hu. apply list_elem_of_In in Hu. simpl in Hu.
  destruct Hu as [<- | [<- | []]]; discriminate.
Defined.

Lemma built_rows_have_default_role_and_digest_witness :
  User.roles Sample.alice = ["user"]
  ∧ ∃ pass, User.password Sample.alice = @bcrypt_hash Sample.bcrypt pass 10.
Proof.
  apply (@built_rows_have_default_role_and_digest Sample.bcrypt
           [CallCreate "a@x.com" "alice" "p"; CallRemove 7]).
  vm_compute. left.
Defined.

Lemma create_keeps_existing_users_witness :
  (UserService.findOneByEmail "a@x.com"
     (@UserService.create Sample.bcrypt "b@x.com" "bob" "q" Sample.repo).2).1
  = Return (Some Sample.alice).
Proof.
  apply (@create_keeps_existing_users Sample.bcrypt "b@x.com" "bob" "q"
           Sample.repo).
  reflexivity.
Defined.

Lemma signup_then_validateUser_witness :
  ∃ user,
    @AuthService.validateUser Sample.bcrypt "b@x.com" "q" Fixture.repo2
    = (Return user, Fixture.repo2)
    ∧ AuthService.login_payload user !! "sub" = Some (JNum 2).
Proof.
  destruct (@signup_then_validateUser Sample.bcrypt "b@x.com" "bob" "q"
              Sample.repo Fixture.repo2 _ Sample_bcrypt_accepts_own_digest
              eq_refl) as [Hvalidate Hpayload].
  eexists. split; [exact Hvalidate |]. rewrite Hpayload. reflexivity.
Defined.

Lemma built_users_cannot_reach_admin_routes_witness :
  ∃ user,
    (@AuthService.validateUser Sample.bcrypt "a@x.com" "p" Sample.repo).1
    = Return user
    ∧ AuthService.login_payload user !! "roles" = Some (JArr ["user"]).
Proof.
  eexists. split; [reflexivity |].
  apply (@built_users_cannot_reach_admin_routes Sample.bcrypt
           [CallCreate "a@x.com" "alice" "p"] "a@x.com" "p").
  reflexivity.
Defined.

(* ===================================================================== *)
(** * Further properties of the permission snapshot *)
(* ===================================================================== *)

Lemma includes_ext (seen seen' : list string) (x : string) :
  (∀ y, y ∈ seen ↔ y ∈ seen') → includes seen x = includes seen' x.
Proof.
  intros Hsame. destruct (includes seen' x) eqn:Hx.
  - apply includes_true. apply includes_true in Hx. by apply Hsame.
  - apply includes_false. apply includes_false in Hx. by rewrite Hsame.
Qed.

Lemma Set_spread_from_ext (seen seen' l : list string) :
  (∀ y, y ∈ seen ↔ y ∈ seen') →
  Set_spread_from seen l = Set_spread_from seen' l.
Proof.
  revert seen seen'. induction l as [|x t IH]; intros seen seen' Hsame; simpl;
    [done |].
  rewrite (includes_ext seen seen' x Hsame).
  destruct (includes seen' x); [by apply IH |].
  f_equal. apply IH. intros y. rewrite !elem_of_cons, Hsame. done.
Qed.

Lemma Set_spread_from_app (seen l k : list string) :
  Set_spread_from seen (l ++ k)
  = (Set_spread_from seen l ++ Set_spread_from (l ++ seen) k)%list.
Proof.
  revert seen. induction l as [|x t IH]; intros seen; simpl; [done |].
  destruct (includes seen x) eqn:Hx.
  - rewrite IH. f_equal. apply Set_spread_from_ext. intros y.
    apply includes_true in Hx.
    rewrite elem_of_cons, !elem_of_app. intuition (subst; tauto).
  - rewrite IH. simpl. do 2 f_equal. apply Set_spread_from_ext. intros y.
    rewrite elem_of_cons, !elem_of_app, elem_of_cons. tauto.
Qed.

Lemma Set_spread_from_sublist (seen l : list string) :
  Set_spread_from seen l `sublist_of` l.
Proof.
  revert seen. induction l as [|x t IH]; intros seen; simpl; [done |].
  destruct (includes seen x); [apply sublist_cons, IH | apply sublist_skip, IH].
Qed.

Lemma Set_spread_from_NoDup_id (seen l : list string) :
  NoDup l → (∀ x, x ∈ l → x ∉ seen) → Set_spread_from seen l = l.
Proof.
  revert seen. induction l as [|x t IH]; intros seen Hnd Hfresh; simpl;
    [done |].
  apply NoDup_cons in Hnd as [Hx Ht].
  rewrite (proj2 (includes_false seen x)) by (apply Hfresh; left).
  f_equal. apply IH; [done |]. intros y Hy.
  rewrite not_elem_of_cons. split; [intros -> ; done |]. apply Hfresh. by right.
Qed.

Lemma permissions_app (roles more : list Dynamic.RoleEntity) :
  Dynamic.permissions (roles ++ more)
  = (Dynamic.permissions roles ++ Dynamic.permissions more)%list.
Proof. apply flat_map_app. Qed.

(** X23. Giving a user one more role, after the ones they have, only
    appends to the permission list of the token: the list for the roles so
    far is a prefix of the new one, so nothing is dropped or reordered. *)
Theorem uniquePermissions_prefix (roles more : list Dynamic.RoleEntity) :
  Dynamic.uniquePermissions roles
  `prefix_of` Dynamic.uniquePermissions (roles ++ more).
Proof.
  unfold Dynamic.uniquePermissions, Set_spread.
  rewrite permissions_app, Set_spread_from_app. by eexists.
Qed.

(** X24. The permission list of the token keeps the order of the flattened
    role permissions and is never longer; it is that very list exactly when
    no permission name occurs twice among the roles, and deduplicating it
    again changes nothing. *)
Theorem uniquePermissions_against_permissions
    (roles : list Dynamic.RoleEntity) :
  Dynamic.uniquePermissions roles `sublist_of` Dynamic.permissions roles
  ∧ (length (Dynamic.uniquePermissions roles)
     ≤ length (Dynamic.permissions roles))%nat
  ∧ (Dynamic.uniquePermissions roles = Dynamic.permissions roles
     ↔ NoDup (Dynamic.permissions roles))
  ∧ Set_spread (Dynamic.uniquePermissions roles)
    = Dynamic.uniquePermissions roles.
Proof.
  unfold Dynamic.uniquePermissions, Set_spread.
  pose proof (Set_spread_from_sublist [] (Dynamic.permissions roles)) as Hsub.
  split; [done |]. split; [by apply sublist_length |]. split; [split |].
  - intros <-. apply Set_spread_from_NoDup.
  - intros Hnd. apply Set_spread_from_NoDup_id; [done |].
    intros x _. apply not_elem_of_nil.
  - apply Set_spread_from_NoDup_id; [apply Set_spread_from_NoDup |].
    intros x _. apply not_elem_of_nil.
Qed.

(** X25. From login to guard: for a user whose token carries the
    permission list built at login from their roles, the permissions guard
    admits a route exactly when every required permission is the name of a
    permission of one of those roles. *)
Theorem PermissionsGuard_on_login_permissions
    (roles : list Dynamic.RoleEntity) (P : list string) (u : JwtUser) :
  jwt_permissions u = Some (Dynamic.uniquePermissions roles) →
  PermissionsGuard.canActivate (Some P) (Some u) = Return true
  ↔ ∀ p, p ∈ P →
         ∃ role perm, role ∈ roles ∧ perm ∈ Dynamic.role_permissions role
                      ∧ Dynamic.permission_name perm = p.
Proof.
  intros Hperms. rewrite PermissionsGuard_canActivate_eq.
  unfold permissions_of. rewrite Hperms. simpl. split.
  - intros [= Hall] p Hp. apply forallb_includes in Hall.
    apply permissions_elem_of. unfold Dynamic.uniquePermissions in Hall.
    by apply Set_spread_elem_of, Hall.
  - intros Hall. f_equal. apply forallb_includes. intros p Hp.
    unfold Dynamic.uniquePermissions.
    by apply Set_spread_elem_of, permissions_elem_of, Hall.
Qed.

Lemma PermissionsGuard_on_login_permissions_witness :
  PermissionsGuard.canActivate (Some ["create-articles"; "delete-articles"])
    (Some (mkJwtUser None
             (Some ["create-articles"; "edit-articles"; "delete-articles"])))
  = Return true
  ↔ ∀ p, p ∈ ["create-articles"; "delete-articles"] →
         ∃ role perm, role ∈ [Sample.author; Sample.editor]
                      ∧ perm ∈ Dynamic.role_permissions role
                      ∧ Dynamic.permission_name perm = p.
Proof.
  apply (PermissionsGuard_on_login_permissions
           [Sample.author; Sample.editor]).
  reflexivity.
Defined.

(** X26. A role more never costs access: a user whose token was built from
    a larger set of roles passes the permissions guard wherever the token
    built from the smaller set passes. *)
Theorem PermissionsGuard_more_roles (roles roles' : list Dynamic.RoleEntity)
    (P : list string) (u u' : JwtUser) :
  roles ⊆ roles' →
  jwt_permissions u = Some (Dynamic.uniquePermissions roles) →
  jwt_permissions u' = Some (Dynamic.uniquePermissions roles') →
  PermissionsGuard.canActivate (Some P) (Some u) = Return true →
  PermissionsGuard.canActivate (Some P) (Some u') = Return true.
Proof.
  intros Hsub Hu Hu'. rewrite !PermissionsGuard_canActivate_eq.
  unfold permissions_of. rewrite Hu, Hu'. simpl. intros [= Hall]. f_equal.
  apply forallb_includes. apply forallb_includes in Hall. intros p Hp.
  unfold Dynamic.uniquePermissions in *.
  apply Set_spread_elem_of, permissions_elem_of.
  apply Hall, Set_spread_elem_of, permissions_elem_of in Hp
    as (role & perm & Hrole & Hrest).
  exists role, perm. split; [by apply Hsub | done].
Qed.

Lemma PermissionsGuard_more_roles_witness :
  PermissionsGuard.canActivate (Some ["edit-articles"])
    (Some (mkJwtUser None
             (Some (Dynamic.uniquePermissions [Sample.editor; Sample.author]))))
  = Return true.
Proof.
  apply (PermissionsGuard_more_roles [Sample.author]
           [Sample.editor; Sample.author] ["edit-articles"]
           (mkJwtUser None (Some (Dynamic.uniquePermissions [Sample.author])))).
  - intros r Hr. apply list_elem_of_singleton in Hr as ->. right. left.
  - reflexivity.
  - reflexivity.
  - reflexivity.
Defined.
